(** * Coffee exports analysis: a shallow embedding of [coffee_exports_analysis.py]

    The script is a linear pandas pipeline: load the "Year ..." sheets of a
    workbook, coerce the measure columns to numbers, drop the rows without a
    volume, and write a fixed series of aggregate tables and charts.

    Modelling choices.
    - A workbook is the list of its sheets; a sheet is a name, a header and a
      grid of cells (what [pd.read_excel] hands back).
    - A cell is a string, a number or the missing-value marker NaN.  Numbers
      are exact rationals ([Qc]): binary rounding, overflow and the IEEE
      infinities are not represented; a division by zero gives NaN.
    - Sheet and column names are byte strings; case folding and white space
      are the ASCII ones.
    - A data frame is its ordered column list and its rows; a row maps column
      names to cells and reads as NaN where it has no entry (the cells
      [pd.concat] fills in for a column that a sheet does not have).
    - [main] takes the workbook instead of its path and runs in a small monad
      that threads the list of files written so far and an exception.  The
      chart primitives are represented by the image file they write; what
      matplotlib draws, whether it accepts the data, and the closing [print]
      are left out.
    - [pd.to_numeric] on a string is library code: the pipeline is
      parameterised by the string parser [parse_number].
    - [sort_values] is a stable sort.  pandas promises that for the sorts on
      two columns; for the sorts on one column the order among equal values
      depends on the sort kind, and no statement below relies on it.  A
      column that mixes numbers and strings is ordered numbers first, the way
      pandas orders group keys; that [sort_values] may reject such a column
      is not represented. *)

From Stdlib Require Import Ascii String QArith Qcanon.
From stdpp Require Import base tactics option list numbers strings gmap sorting.

Local Open Scope string_scope.
Local Open Scope list_scope.

(** ** Python string methods used by the script *)

Module Str.

(** [str.lower] on ASCII letters. *)
Definition lower_ascii (c : ascii) : ascii :=
  let n := nat_of_ascii c in
  if (65 <=? n)%nat && (n <=? 90)%nat then ascii_of_nat (n + 32) else c.

Fixpoint lower (s : string) : string :=
  match s with
  | EmptyString => EmptyString
  | String c s' => String (lower_ascii c) (lower s')
  end.

(** [s.startswith(p)] *)
Definition startswith (s p : string) : bool := String.prefix p s.

(** [str.isspace] on one ASCII character: tab, line feed, vertical tab, form
    feed, carriage return, the four separators 28-31 and the space. *)
Definition isspace (c : ascii) : bool :=
  let n := nat_of_ascii c in
  ((9 <=? n)%nat && (n <=? 13)%nat) || ((28 <=? n)%nat && (n <=? 32)%nat).

Fixpoint lstrip (s : string) : string :=
  match s with
  | EmptyString => EmptyString
  | String c s' => if isspace c then lstrip s' else s
  end.

Fixpoint rstrip (s : string) : string :=
  match s with
  | EmptyString => EmptyString
  | String c s' =>
      match rstrip s' with
      | EmptyString => if isspace c then EmptyString else String c EmptyString
      | r => String c r
      end
  end.

(** [s.strip()] *)
Definition strip (s : string) : string := rstrip (lstrip s).

(** [s.replace(old, new)] for a non-empty [old]: occurrences are found from
    left to right and do not overlap.  [skip] counts the characters of a
    match that are still to be dropped. *)
Fixpoint replace_go (old new : string) (skip : nat) (s : string) : string :=
  match s with
  | EmptyString => EmptyString
  | String c s' =>
      match skip with
      | S k => replace_go old new k s'
      | O =>
          if String.prefix old s
          then new +:+ replace_go old new (String.length old - 1) s'
          else String c (replace_go old new 0 s')
      end
  end.

(** With an empty [old] Python puts [new] around every character. *)
Fixpoint interleave (new s : string) : string :=
  match s with
  | EmptyString => new
  | String c s' => new +:+ String c (interleave new s')
  end.

Definition replace (old new s : string) : string :=
  match old with
  | EmptyString => interleave new s
  | _ => replace_go old new 0 s
  end.

(** [sub in s] *)
Fixpoint contains (sub s : string) : bool :=
  String.prefix sub s ||
  match s with
  | EmptyString => false
  | String _ s' => contains sub s'
  end.

Fixpoint skipn (n : nat) (s : string) : string :=
  match n, s with
  | S k, String _ s' => skipn k s'
  | _, _ => s
  end.

(** [s.removeprefix(p)]: drop [p] once, at the front only. *)
Definition removeprefix (p s : string) : string :=
  if String.prefix p s then skipn (String.length p) s else s.

End Str.

(** ** Cells, rows and data frames *)

Inductive cell : Type :=
  | CStr (s : string)
  | CNum (q : Qc)
  | CNaN.

Global Instance cell_eq_dec : EqDecision cell.
Proof. solve_decision. Defined.

(** [pd.isna] *)
Definition isna (c : cell) : bool :=
  match c with CNaN => true | _ => false end.

(** The number a cell contributes to a sum: pandas sums skip NaN. *)
Definition num (c : cell) : Qc :=
  match c with CNum q => q | _ => 0%Qc end.

Record DataFrame : Type := {
  columns : list string;
  rows : list (gmap string cell)
}.

(** [row[c]]; a row without an entry for [c] holds NaN there. *)
Definition get (r : gmap string cell) (c : string) : cell :=
  default CNaN (r !! c).

(** The order pandas uses on group keys: numbers before strings, NaN last. *)
Definition cell_compare (a b : cell) : comparison :=
  match a, b with
  | CNum p, CNum q => (p ?= q)%Qc
  | CNum _, _ => Lt
  | CStr _, CNum _ => Gt
  | CStr s, CStr t => String.compare s t
  | CStr _, CNaN => Lt
  | CNaN, CNaN => Eq
  | CNaN, _ => Gt
  end.

(** One sort key of [sort_values]: ascending or descending, NaN last in both
    directions ([na_position="last"]). *)
Definition dir_compare (ascending : bool) (a b : cell) : comparison :=
  if ascending then cell_compare a b
  else match a, b with
       | CNaN, CNaN => Eq
       | CNaN, _ => Gt
       | _, CNaN => Lt
       | _, _ => cell_compare b a
       end.

Fixpoint key_compare (k1 k2 : list cell) : comparison :=
  match k1, k2 with
  | [], [] => Eq
  | [], _ :: _ => Lt
  | _ :: _, [] => Gt
  | a :: k1', b :: k2' =>
      match cell_compare a b with
      | Eq => key_compare k1' k2'
      | o => o
      end
  end.

Fixpoint row_compare (by_ : list (string * bool)) (r1 r2 : gmap string cell)
  : comparison :=
  match by_ with
  | [] => Eq
  | (c, ascending) :: by' =>
      match dir_compare ascending (get r1 c) (get r2 c) with
      | Eq => row_compare by' r1 r2
      | o => o
      end
  end.

(** A stable sort: an element goes in front of the first one that is not
    smaller, so equal elements keep their order. *)
Section StableSort.
Context {A : Type} (cmp : A → A → comparison).

Fixpoint insert_sorted (x : A) (l : list A) : list A :=
  match l with
  | [] => [x]
  | y :: l' =>
      match cmp x y with
      | Gt => y :: insert_sorted x l'
      | _ => x :: l
      end
  end.

Definition stable_sort (l : list A) : list A := foldr insert_sorted [] l.

(** The order a three-way comparison stands for. *)
Definition le_of (x y : A) : Prop := cmp x y ≠ Gt.

(** What makes [cmp] a total preorder. *)
Record total_preorder : Prop := {
  tp_refl : ∀ x, cmp x x = Eq;
  tp_antisym : ∀ x y, cmp y x = CompOpp (cmp x y);
  tp_trans_lt : ∀ x y z, cmp x y = Lt → cmp y z = Lt → cmp x z = Lt;
  tp_eq_l : ∀ x y z, cmp x y = Eq → cmp x z = cmp y z
}.
End StableSort.

(** ** The pandas operations of the script *)

Module Pd.

(** [df[c] = f(row)] : overwrite the column, or append it when it is new. *)
Definition setitem (c : string) (f : gmap string cell → cell) (df : DataFrame)
  : DataFrame :=
  {| columns := if decide (c ∈ columns df) then columns df
                else columns df ++ [c];
     rows := (λ r, <[c := f r]> r) <$> rows df |}.

(** [pd.concat(frames, ignore_index=True)]: the columns are the union in
    order of first appearance, the rows follow each other. *)
Definition concat (frames : list DataFrame) : DataFrame :=
  {| columns :=
       foldl (λ acc df, acc ++ list_difference (columns df) acc) [] frames;
     rows := frames ≫= rows |}.

(** [df.dropna(subset=cols)] *)
Definition notna_on (subset : list string) (r : gmap string cell) : bool :=
  forallb (λ c, negb (isna (get r c))) subset.

Definition dropna (subset : list string) (df : DataFrame) : DataFrame :=
  {| columns := columns df;
     rows := filter (λ r, notna_on subset r = true) (rows df) |}.

(** [df.head(n)] *)
Definition head (n : nat) (df : DataFrame) : DataFrame :=
  {| columns := columns df; rows := take n (rows df) |}.

(** [df[c].sum()] *)
Definition sum (c : string) (rs : list (gmap string cell)) : Qc :=
  foldr (λ r acc, (num (get r c) + acc)%Qc) 0%Qc rs.

(** [df.groupby(keys, as_index=False)[measure].sum()] with the defaults
    [sort=True] and [dropna=True]: rows with a missing key are left out, one
    row per distinct key tuple, in ascending key order.  The order in which
    the distinct tuples are collected is immaterial, they are sorted. *)
Definition key_of (keys : list string) (r : gmap string cell) : list cell :=
  get r <$> keys.

Definition group_keys (keys : list string) (rs : list (gmap string cell))
  : list (list cell) :=
  stable_sort key_compare
    (remove_dups (key_of keys <$> filter (λ r, notna_on keys r = true) rs)).

Definition group_rows (keys : list string) (k : list cell)
    (rs : list (gmap string cell)) : list (gmap string cell) :=
  filter (λ r, key_of keys r = k) rs.

Definition group_row (keys : list string) (measure : string)
    (rs : list (gmap string cell)) (k : list cell) : gmap string cell :=
  <[measure := CNum (sum measure (group_rows keys k rs))]>
    (list_to_map (zip keys k)).

Definition groupby_sum (keys : list string) (measure : string)
    (df : DataFrame) : DataFrame :=
  {| columns := keys ++ [measure];
     rows := group_row keys measure (rows df) <$> group_keys keys (rows df) |}.

(** [df.sort_values(cols, ascending=flags)].  Ties keep their order, as the
    multi-key sort of pandas does; for a single key pandas leaves the order
    of ties to the sort kind, and nothing proved below depends on it. *)
Definition sort_values (by_ : list (string * bool)) (df : DataFrame)
  : DataFrame :=
  {| columns := columns df;
     rows := stable_sort (row_compare by_) (rows df) |}.

(** [df.groupby(key, as_index=False).head(n)]: the first [n] rows of every
    group, in the order of the frame.  [seen] holds the keys of the rows
    already passed. *)
Fixpoint group_head_go (key : string) (n : nat) (seen : list cell)
    (rs : list (gmap string cell)) : list (gmap string cell) :=
  match rs with
  | [] => []
  | r :: rs' =>
      let k := get r key in
      if isna k then group_head_go key n seen rs'
      else if decide (length (filter (k =.) seen) < n)%nat
           then r :: group_head_go key n (k :: seen) rs'
           else group_head_go key n (k :: seen) rs'
  end.

Definition groupby_head (key : string) (n : nat) (df : DataFrame)
  : DataFrame :=
  {| columns := columns df; rows := group_head_go key n [] (rows df) |}.

(** [df[df[c].isin(values)]] *)
Definition isin (c : string) (values : list cell) (df : DataFrame)
  : DataFrame :=
  {| columns := columns df;
     rows := filter (λ r, get r c ∈ values) (rows df) |}.

(** [df[c].tolist()] *)
Definition tolist (c : string) (df : DataFrame) : list cell :=
  (λ r, get r c) <$> rows df.

(** [df[c] / total * 100.0] on one value; [total] is a sum, never NaN.  With
    a total of zero the floating-point result is NaN for 0/0 and an infinity
    otherwise; the model has no infinities and gives NaN for both. *)
Definition percent_of (total : Qc) (c : cell) : cell :=
  match c with
  | CNum v => if decide (total = 0%Qc) then CNaN
              else CNum (v / total * Qc_of_Z 100)%Qc
  | _ => CNaN
  end.

(** [df[c] / 1000.0] on one value. *)
Definition div_by (d : Qc) (c : cell) : cell :=
  match c with
  | CNum v => CNum (v / d)%Qc
  | _ => CNaN
  end.

(** The string values of a column; the [Year] column holds nothing else. *)
Definition str_values (c : string) (df : DataFrame) : list string :=
  omap (λ r, match get r c with CStr s => Some s | _ => None end) (rows df).

(** [sorted(df[c].unique(), key=lambda x: str(x))] *)
Definition sorted_unique (c : string) (df : DataFrame) : list string :=
  stable_sort String.compare (remove_dups (str_values c df)).

End Pd.

(** ** Workbooks *)

Record Sheet : Type := {
  sheet_name : string;
  header : list string;
  body : list (list cell)
}.

(** [pd.read_excel(path, sheet_name=sheet)]: the header gives the columns and
    every grid line one row; a line shorter than the header leaves the
    remaining columns empty.  Sheet names are unique in a workbook, so reading
    a sheet by its name gives that sheet. *)
Definition read_excel (sheet : Sheet) : DataFrame :=
  {| columns := header sheet;
     rows := (λ line, list_to_map (zip (header sheet) line)) <$> body sheet |}.

(** ** Effects: the files written and the exception raised *)

Inductive exn : Type :=
  | ValueError (msg : string)
  | KeyError (key : string)
  | AttributeError.

Inductive file : Type :=
  | Csv (path : string) (table : DataFrame)
  | Png (path : string).

Definition M (A : Type) : Type := list file → list file * (exn + A).

Global Instance M_ret : MRet M := λ A x fs, (fs, inr x).
Global Instance M_bind : MBind M := λ A B f m fs,
  match m fs with
  | (fs', inr x) => f x fs'
  | (fs', inl e) => (fs', inl e)
  end.

(** A pure step that returns or raises. *)
Definition lift {A : Type} (r : exn + A) : M A := λ fs, (fs, r).

(** Writing a file adds it behind the files written so far. *)
Definition write (f : file) : M unit := λ fs, (fs ++ [f], inr ()).

(** A [for] loop. *)
Fixpoint for_each {A : Type} (l : list A) (f : A → M unit) : M unit :=
  match l with
  | [] => mret ()
  | x :: l' => f x ;; for_each l' f
  end.

(** ** The script *)

Definition OUTPUT_DIR : string := "outputs".

(** [os.path.join(OUTPUT_DIR, name)] *)
Definition out_path (name : string) : string := OUTPUT_DIR +:+ "/" +:+ name.

(** Line 36: [s.lower().startswith("year")] *)
Definition is_year_sheet (s : string) : bool :=
  Str.startswith (Str.lower s) "year".

(** Line 41: every "Year " in the sheet name is replaced by the empty string,
    then the result is stripped. *)
Definition year_label (sheet : string) : string :=
  Str.strip (Str.replace "Year " EmptyString sheet).

Definition year_sheets (wb : list Sheet) : list Sheet :=
  filter (λ s, is_year_sheet (sheet_name s) = true) wb.

(** Lines 39 to 42: the frame of one sheet, with its [Year] column. *)
Definition year_frame (sheet : Sheet) : DataFrame :=
  Pd.setitem "Year" (λ _, CStr (year_label (sheet_name sheet)))
    (read_excel sheet).

Definition read_year_sheets (wb : list Sheet) : exn + DataFrame :=
  let frames := year_frame <$> year_sheets wb in
  match frames with
  | [] => inl (ValueError "No 'Year ...' sheets found in the workbook.")
  | _ => inr (Pd.concat frames)
  end.

Definition save_table (df : DataFrame) (name : string) : M string :=
  let path := out_path (name +:+ ".csv") in
  write (Csv path df) ;; mret path.

Definition barh_plot (filename : string) : M unit :=
  write (Png (out_path filename)).

Definition bar_plot (filename : string) : M unit :=
  write (Png (out_path filename)).

Definition pie_plot (filename : string) : M unit :=
  write (Png (out_path filename)).

Section Pipeline.
(** What [pd.to_numeric] makes of a string: its number, or nothing when the
    string does not parse. *)
Context (parse_number : string → option Qc).

(** [pd.to_numeric(x, errors="coerce")] on one value. *)
Definition to_numeric (c : cell) : cell :=
  match c with
  | CNum q => CNum q
  | CStr s => match parse_number s with Some q => CNum q | None => CNaN end
  | CNaN => CNaN
  end.

Definition coerce_numeric (df : DataFrame) (cols : list string) : DataFrame :=
  foldl (λ df c,
           if decide (c ∈ columns df)
           then Pd.setitem c (λ r, to_numeric (get r c)) df
           else df)
        df cols.

(** Lines 102 to 108 of [main]: coerce, derive the volume in tons (this is
    where a frame without the volume column raises), drop the rows without a
    volume. *)
Definition normalize (df_all : DataFrame) : exn + DataFrame :=
  let df_all := coerce_numeric df_all ["Trade volume"; "Trade value"] in
  if decide ("Trade volume" ∈ columns df_all) then
    let df_all :=
      Pd.setitem "Trade volume (t)"
        (λ r, Pd.div_by (Qc_of_Z 1000) (get r "Trade volume")) df_all in
    inr (Pd.dropna ["Trade volume"] df_all)
  else inl (KeyError "Trade volume").

End Pipeline.

(** The aggregate tables, named as in [main]. *)

Definition with_percentage (df : DataFrame) : DataFrame :=
  let total := Pd.sum "Trade volume" (rows df) in
  Pd.setitem "Porcentaje"
    (λ r, Pd.percent_of total (get r "Trade volume")) df.

Definition per_year (df_all : DataFrame) : DataFrame :=
  Pd.sort_values [("Year", true)]
    (Pd.groupby_sum ["Year"] "Trade volume" df_all).

(** The shape of [by_country], [by_exporter], [beans] and [muni] before the
    percentage column is added. *)
Definition by_volume (key : string) (df_all : DataFrame) : DataFrame :=
  Pd.sort_values [("Trade volume", false)]
    (Pd.groupby_sum [key] "Trade volume" df_all).

Definition by_country (df_all : DataFrame) : DataFrame :=
  with_percentage (by_volume "Country of destination" df_all).

Definition by_exporter (df_all : DataFrame) : DataFrame :=
  with_percentage (by_volume "Exporter" df_all).

Definition beans (df_all : DataFrame) : DataFrame :=
  with_percentage (by_volume "Coffee bean" df_all).

Definition muni (df_all : DataFrame) : DataFrame :=
  by_volume "Municipality of export" df_all.

(** The shape of [by_year_importer], [by_year_country], [beans_year] and
    [muni_exp]. *)
Definition by_group_volume (group key : string) (df_all : DataFrame)
  : DataFrame :=
  Pd.sort_values [(group, true); ("Trade volume", false)]
    (Pd.groupby_sum [group; key] "Trade volume" df_all).

Definition top3_imp (df_all : DataFrame) : DataFrame :=
  Pd.groupby_head "Year" 3 (by_group_volume "Year" "Importer" df_all).

Definition top3_countries (df_all : DataFrame) : DataFrame :=
  Pd.groupby_head "Year" 3
    (by_group_volume "Year" "Country of destination" df_all).

Definition top1_bean_year (df_all : DataFrame) : DataFrame :=
  Pd.groupby_head "Year" 1 (by_group_volume "Year" "Coffee bean" df_all).

Definition top5_names (df_all : DataFrame) : list cell :=
  Pd.tolist "Municipality of export" (Pd.head 5 (Pd.head 10 (muni df_all))).

Definition top_muni_exp (df_all : DataFrame) : DataFrame :=
  Pd.isin "Municipality of export" (top5_names df_all)
    (by_group_volume "Municipality of export" "Exporter" df_all).

(** One chart per year of a top-N table. *)
Definition plot_per_year (top : DataFrame) (prefix : string) : M unit :=
  for_each (Pd.sorted_unique "Year" top)
    (λ y, bar_plot (prefix +:+ y +:+ ".png")).

(** [m.replace(' ', '_')] in the file name of a municipality chart: a
    municipality that is not a string has no such method. *)
Definition muni_slug (m : cell) : exn + string :=
  match m with
  | CStr s => inr (Str.replace " " "_" s)
  | _ => inl AttributeError
  end.

(** [c in df.columns] *)
Definition has_column (c : string) (df : DataFrame) : bool :=
  bool_decide (c ∈ columns df).

(** An [if] without [else]. *)
Definition when (b : bool) (m : M unit) : M unit :=
  if b then m else mret ().

(** The sections A to G of [main], lines 113 to 307. *)

Definition report_A (df_all : DataFrame) : M unit :=
  save_table (per_year df_all) "summary_trade_volume_by_year" ;;
  bar_plot "A_trade_volume_by_year.png".

Definition report_B (df_all : DataFrame) : M unit :=
  when (has_column "Country of destination" df_all) (
    save_table (by_country df_all)
      "summary_trade_volume_by_destination_country" ;;
    pie_plot "B_destination_country_pie_top10.png").

Definition report_C (df_all : DataFrame) : M unit :=
  when (has_column "Exporter" df_all) (
    save_table (by_exporter df_all) "summary_trade_volume_by_exporter" ;;
    barh_plot "C_exporters_top10_barh.png").

Definition report_D (df_all : DataFrame) : M unit :=
  when (has_column "Importer" df_all) (
    save_table (top3_imp df_all) "top3_importers_per_year" ;;
    plot_per_year (top3_imp df_all) "D_top3_importers_").

Definition report_E (df_all : DataFrame) : M unit :=
  when (has_column "Country of destination" df_all) (
    save_table (top3_countries df_all) "top3_destination_countries_per_year" ;;
    plot_per_year (top3_countries df_all) "E_top3_countries_").

Definition report_F (df_all : DataFrame) : M unit :=
  when (has_column "Coffee bean" df_all) (
    save_table (beans df_all) "summary_trade_volume_by_coffee_bean" ;;
    barh_plot "F_beans_barh.png" ;;
    save_table (top1_bean_year df_all) "top1_coffee_bean_per_year" ;;
    plot_per_year (top1_bean_year df_all) "F2_top1_bean_").

Definition report_G (df_all : DataFrame) : M unit :=
  when (has_column "Municipality of export" df_all) (
    save_table (muni df_all) "summary_trade_volume_by_municipality" ;;
    barh_plot "G_municipalities_top10_barh.png" ;;
    when (has_column "Exporter" df_all) (
      save_table (top_muni_exp df_all) "exporters_in_top5_municipalities" ;;
      for_each (top5_names df_all) (λ m,
        slug ← lift (muni_slug m);
        barh_plot ("G2_exporters_top_" +:+ slug +:+ ".png")))).

(** Everything [main] does once the frame is normalised, lines 110 to 310. *)
Definition reports (df_all : DataFrame) : M Z :=
  save_table df_all "combined_all_years" ;;
  report_A df_all ;;
  report_B df_all ;;
  report_C df_all ;;
  report_D df_all ;;
  report_E df_all ;;
  report_F df_all ;;
  report_G df_all ;;
  mret 0%Z.

Definition main (parse_number : string → option Qc) (excel : list Sheet)
  : M Z :=
  df_all ← lift (read_year_sheets excel);
  df_all ← lift (normalize parse_number df_all);
  reports df_all.

(** [sys.exit(main(args.excel))] in a fresh output directory: the files
    written and the exit status; an uncaught exception ends the process with
    status 1. *)
Definition run (parse_number : string → option Qc) (excel : list Sheet)
  : list file * Z :=
  match main parse_number excel [] with
  | (fs, inr status) => (fs, status)
  | (fs, inl _) => (fs, 1%Z)
  end.

(** The CSV files among the files written. *)
Definition csv_paths (fs : list file) : list string :=
  omap (λ f, match f with Csv p _ => Some p | Png _ => None end) fs.

(** The table found at [path] once the files are written: a later write
    replaces an earlier one. *)
Definition csv_table (path : string) (fs : list file) : option DataFrame :=
  foldl (λ found f,
           match f with
           | Csv p t => if decide (p = path) then Some t else found
           | Png _ => found
           end)
        None fs.

(** ** The Normalizer row by row *)

(** What [coerce_numeric] does to one row of a frame with the columns
    [present]. *)
Definition coerce_row (parse_number : string → option Qc)
    (present cols : list string) (r : gmap string cell) : gmap string cell :=
  foldl (λ r c,
           if decide (c ∈ present)
           then <[c := to_numeric parse_number (get r c)]> r
           else r)
        r cols.

(** What lines 102 to 105 of [main] do to one row. *)
Definition normalize_row (parse_number : string → option Qc)
    (present : list string) (r : gmap string cell) : gmap string cell :=
  let r' := coerce_row parse_number present ["Trade volume"; "Trade value"] r in
  <["Trade volume (t)" :=
      Pd.div_by (Qc_of_Z 1000) (get r' "Trade volume")]> r'.

(** The Loader followed by the Normalizer. *)
Definition load (parse_number : string → option Qc) (wb : list Sheet)
  : exn + DataFrame :=
  match read_year_sheets wb with
  | inl e => inl e
  | inr df => normalize parse_number df
  end.

(** The sheet with another grid. *)
Definition with_body (sheet : Sheet) (b : list (list cell)) : Sheet :=
  {| sheet_name := sheet_name sheet; header := header sheet; body := b |}.

(** ** The orders the reports are read in *)

Definition volume (r : gmap string cell) : Qc := num (get r "Trade volume").

(** Descending summed volume. *)
Definition volume_desc (r1 r2 : gmap string cell) : Prop :=
  (volume r2 ≤ volume r1)%Qc.

(** Ascending year label. *)
Definition year_asc (r1 r2 : gmap string cell) : Prop :=
  le_of cell_compare (get r1 "Year") (get r2 "Year").

(** Ascending group, and descending summed volume inside a group. *)
Definition group_then_volume_desc (group : string)
    (r1 r2 : gmap string cell) : Prop :=
  cell_compare (get r1 group) (get r2 group) = Lt
  ∨ (get r1 group = get r2 group ∧ volume_desc r1 r2).

(** The rows of one year. *)
Definition year_rows (y : cell) (df : DataFrame) : list (gmap string cell) :=
  filter (λ r, get r "Year" = y) (rows df).

(** At most [n] rows for every year, each year in descending volume. *)
Definition top_n_per_year (n : nat) (df : DataFrame) : Prop :=
  ∀ y, (length (year_rows y df) ≤ n)%nat
       ∧ StronglySorted volume_desc (year_rows y df).

(** A frame with nothing but the given key tuples and measure values. *)
Definition skeleton (keys : list string) (measure : string)
    (l : list (list cell * cell)) : DataFrame :=
  {| columns := keys ++ [measure];
     rows := (λ p, <[measure := p.2]> (list_to_map (zip keys p.1))) <$> l |}.

(** ** What a computation writes *)

(** [m] leaves the files already written alone, adds files among which the
    CSV files are [csvs], in this order, and raises nothing but the
    [AttributeError] of a chart file name. *)
Definition writes {A : Type} (m : M A) (csvs : list string) : Prop :=
  ∀ fs, (∃ out, (m fs).1 = fs ++ out ∧ csv_paths out = csvs) ∧
        ∀ e, (m fs).2 = inl e → e = AttributeError.

(** [m] raises nothing. *)
Definition succeeds {A : Type} (m : M A) : Prop :=
  ∀ fs, ∃ x, (m fs).2 = inr x.

(** The CSV files of section 6 of the specification, for a unified table
    with the columns of [df], in the order in which [main] writes them. *)
Definition expected_csvs (df : DataFrame) : list string :=
  ["outputs/combined_all_years.csv";
   "outputs/summary_trade_volume_by_year.csv"]
  ++ (if has_column "Country of destination" df
      then ["outputs/summary_trade_volume_by_destination_country.csv"]
      else [])
  ++ (if has_column "Exporter" df
      then ["outputs/summary_trade_volume_by_exporter.csv"] else [])
  ++ (if has_column "Importer" df
      then ["outputs/top3_importers_per_year.csv"] else [])
  ++ (if has_column "Country of destination" df
      then ["outputs/top3_destination_countries_per_year.csv"] else [])
  ++ (if has_column "Coffee bean" df
      then ["outputs/summary_trade_volume_by_coffee_bean.csv";
            "outputs/top1_coffee_bean_per_year.csv"]
      else [])
  ++ (if has_column "Municipality of export" df
      then "outputs/summary_trade_volume_by_municipality.csv"
           :: (if has_column "Exporter" df
               then ["outputs/exporters_in_top5_municipalities.csv"]
               else [])
      else []).

(** ** Reference readings and sample workbooks *)

(** The label as the specification words it: the sheet name without its
    "Year " prefix, trimmed. *)
Definition year_label_spec (sheet : string) : string :=
  Str.strip (Str.removeprefix "Year " sheet).

(** A parser to run the samples with: it reads unsigned decimal integers and
    nothing else. *)
Fixpoint parse_digits_go (acc : N) (s : string) : option N :=
  match s with
  | EmptyString => Some acc
  | String c s' =>
      match Ascii.is_nat c with
      | Some d => parse_digits_go (acc * 10 + N.of_nat d) s'
      | None => None
      end
  end.

Definition parse_digits (s : string) : option Qc :=
  match s with
  | EmptyString => None
  | _ => (λ n, Qc_of_Z (Z.of_N n)) <$> parse_digits_go 0 s
  end.

Definition int (z : Z) : cell := CNum (Qc_of_Z z).

(** The scenario of the specification: two year sheets, three rows. *)
Definition sheet_2020 : Sheet :=
  {| sheet_name := "Year 2020"; header := ["Trade volume"];
     body := [[int 100]; [int 200]] |}.

Definition sheet_2021 : Sheet :=
  {| sheet_name := "Year 2021"; header := ["Trade volume"];
     body := [[int 300]] |}.

Definition sheet_notes : Sheet :=
  {| sheet_name := "Notes"; header := ["Remark"];
     body := [[CStr "source: customs"]] |}.

Definition wb_scenario : list Sheet := [sheet_2020; sheet_notes; sheet_2021].

(** A workbook without any year sheet. *)
Definition wb_notes : list Sheet := [sheet_notes].

(** A sheet whose name holds "Year " twice. *)
Definition sheet_two_labels : Sheet :=
  {| sheet_name := "Year 1 Year 2"; header := ["Trade volume"];
     body := [[int 5]] |}.

(** A year sheet that lacks the volume column. *)
Definition sheet_no_volume : Sheet :=
  {| sheet_name := "Year 2020"; header := ["Country of destination"];
     body := [[CStr "Brazil"]] |}.

(** A year sheet with every column the reports look at. *)
Definition sheet_full : Sheet :=
  {| sheet_name := "Year 2022";
     header := ["Trade volume"; "Trade value"; "Country of destination";
                "Exporter"; "Importer"; "Coffee bean";
                "Municipality of export"];
     body :=
       [[int 10; int 7; CStr "Germany"; CStr "Cafe Sur"; CStr "Kaffee AG";
         CStr "Arabica"; CStr "Santa Marta"];
        [CStr "20"; int 9; CNaN; CStr "Cafe Norte"; CStr "Kaffee AG";
         CStr "Arabica"; CStr "Buenaventura"];
        [int 30; CNaN; CStr "Japan"; CNaN; CStr "Kohi KK";
         CStr "Excelso"; CStr "Santa Marta"];
        [CStr "n/a"; int 1; CStr "Japan"; CStr "Cafe Sur"; CStr "Kohi KK";
         CStr "Excelso"; CStr "Cartagena"]] |}.


(** Two years with a rising volume. *)
Definition wb_rising : list Sheet :=
  [ {| sheet_name := "Year 2020"; header := ["Trade volume"];
       body := [[int 100]] |};
    sheet_2021 ].

(** One country, and a volume of zero. *)
Definition wb_zero : list Sheet :=
  [ {| sheet_name := "Year 2020";
       header := ["Trade volume"; "Country of destination"];
       body := [[int 0; CStr "Brazil"]] |} ].

(** The frame the Loader and the Normalizer make of a workbook; the empty
    frame stands in when they raise. *)
Definition frame_of (r : exn + DataFrame) : DataFrame :=
  match r with
  | inr df => df
  | inl _ => {| columns := []; rows := [] |}
  end.

Definition df_full : DataFrame := frame_of (load parse_digits [sheet_full]).

(** ** Further readings of the frames and of the files *)

(** A cell that holds a string. *)
Definition is_str (c : cell) : Prop :=
  match c with CStr _ => True | _ => False end.

Global Instance is_str_dec c : Decision (is_str c).
Proof. destruct c; simpl; apply _. Defined.

(** A cell that [pd.to_numeric] leaves as it is: a number or NaN. *)
Definition is_numeric (c : cell) : Prop :=
  match c with CStr _ => False | _ => True end.

(** The first and the last character of a string. *)
Definition first_char (s : string) : option ascii :=
  match s with
  | EmptyString => None
  | String c _ => Some c
  end.

Fixpoint last_char (s : string) : option ascii :=
  match s with
  | EmptyString => None
  | String c EmptyString => Some c
  | String _ s' => last_char s'
  end.

(** The CSV files among the files written, with their tables. *)
Definition csv_files (fs : list file) : list (string * DataFrame) :=
  omap (λ f, match f with Csv p t => Some (p, t) | Png _ => None end) fs.

(** The image files among the files written. *)
Definition png_paths (fs : list file) : list string :=
  omap (λ f, match f with Png p => Some p | Csv _ _ => None end) fs.

(** [top] holds, for every year, the first [n] rows that [table] has for
    that year, and these have at least the volume of the rows left out. *)
Definition first_n_per_year (n : nat) (table top : DataFrame) : Prop :=
  ∀ y, year_rows y top = take n (year_rows y table) ∧
       ∀ r r', r ∈ take n (year_rows y table) →
               r' ∈ drop n (year_rows y table) → volume_desc r r'.

(** Every year of [table] is in [top], with a row of the largest volume that
    the year has in [table]. *)
Definition leads_every_year (table top : DataFrame) : Prop :=
  ∀ r', r' ∈ rows table →
    ∃ r, r ∈ rows top ∧ get r "Year" = get r' "Year" ∧ volume_desc r r'.

(** The exporter charts of the municipalities are drawn: the frame has both
    columns. *)
Definition draws_municipality_charts (df : DataFrame) : Prop :=
  has_column "Municipality of export" df = true
  ∧ has_column "Exporter" df = true.

(** [m] adds files among which the CSV files, with their tables, are
    [tables], in this order. *)
Definition writes_tables {A : Type} (m : M A)
    (tables : list (string * DataFrame)) : Prop :=
  ∀ fs, ∃ out, (m fs).1 = fs ++ out ∧ csv_files out = tables.

(** The tables behind the CSV files of [expected_csvs]. *)
Definition expected_tables (df : DataFrame) : list (string * DataFrame) :=
  [("outputs/combined_all_years.csv", df);
   ("outputs/summary_trade_volume_by_year.csv", per_year df)]
  ++ (if has_column "Country of destination" df
      then [("outputs/summary_trade_volume_by_destination_country.csv",
             by_country df)]
      else [])
  ++ (if has_column "Exporter" df
      then [("outputs/summary_trade_volume_by_exporter.csv", by_exporter df)]
      else [])
  ++ (if has_column "Importer" df
      then [("outputs/top3_importers_per_year.csv", top3_imp df)] else [])
  ++ (if has_column "Country of destination" df
      then [("outputs/top3_destination_countries_per_year.csv",
             top3_countries df)]
      else [])
  ++ (if has_column "Coffee bean" df
      then [("outputs/summary_trade_volume_by_coffee_bean.csv", beans df);
            ("outputs/top1_coffee_bean_per_year.csv", top1_bean_year df)]
      else [])
  ++ (if has_column "Municipality of export" df
      then ("outputs/summary_trade_volume_by_municipality.csv", muni df)
           :: (if has_column "Exporter" df
               then [("outputs/exporters_in_top5_municipalities.csv",
                      top_muni_exp df)]
               else [])
      else []).

(** A year sheet whose municipality is a number. *)
Definition sheet_numbered_municipality : Sheet :=
  {| sheet_name := "Year 2023";
     header := ["Trade volume"; "Exporter"; "Municipality of export"];
     body := [[int 10; CStr "Cafe Sur"; int 5001]] |}.

(** * Properties *)

(** Two canonical rationals are equal when their fractions are. *)
Ltac Qc_compute := apply Qc_is_canon; vm_compute; reflexivity.
Ltac cell_compute := vm_compute; apply (f_equal CNum); Qc_compute.

(** ** The string methods on small inputs *)

Example lower_mixed_case : Str.lower "YeAr 2020" = "year 2020".
Proof. reflexivity. Qed.

Example strip_both_ends : Str.strip "  2020 " = "2020".
Proof. reflexivity. Qed.

Example replace_every_occurrence : Str.replace "ab" "-" "abcabab" = "-c--".
Proof. reflexivity. Qed.

Example replace_does_not_overlap : Str.replace "aa" "b" "aaa" = "ba".
Proof. reflexivity. Qed.

Example year_label_usual : year_label "Year 2020" = "2020".
Proof. reflexivity. Qed.

(** A sheet that is selected for its lower-case prefix keeps it as label. *)
Example year_label_lower_case :
  is_year_sheet "year 2021" = true ∧ year_label "year 2021" = "year 2021".
Proof. split; reflexivity. Qed.

Example parse_digits_samples :
  parse_digits "20" = Some (Qc_of_Z 20) ∧ parse_digits "n/a" = None.
Proof. split; [|reflexivity]. apply (f_equal Some). Qc_compute. Qed.

(** ** Sorting *)

Section StableSortFacts.
Context {A : Type} (cmp : A → A → comparison).

Lemma insert_sorted_perm x l : insert_sorted cmp x l ≡ₚ x :: l.
Proof.
  induction l as [|y l IH]; simpl; [done|].
  destruct (cmp x y); try done.
  rewrite IH. apply Permutation_swap.
Qed.

Lemma stable_sort_perm l : stable_sort cmp l ≡ₚ l.
Proof.
  induction l as [|x l IH]; simpl; [done|].
  by rewrite insert_sorted_perm, IH.
Qed.

Lemma elem_of_stable_sort x l : x ∈ stable_sort cmp l ↔ x ∈ l.
Proof. by rewrite stable_sort_perm. Qed.

Context (Hcmp : total_preorder cmp).

Lemma tp_eq_r x y z : cmp x y = Eq → cmp z x = cmp z y.
Proof.
  intros E. rewrite (tp_antisym _ Hcmp x z), (tp_antisym _ Hcmp y z).
  f_equal. by apply (tp_eq_l _ Hcmp).
Qed.

Lemma le_of_total x y : ¬ le_of cmp x y → le_of cmp y x.
Proof.
  unfold le_of. intros H. rewrite (tp_antisym _ Hcmp x y).
  destruct (cmp x y); simpl; try done; by destruct H.
Qed.

Lemma le_of_trans x y z : le_of cmp x y → le_of cmp y z → le_of cmp x z.
Proof.
  unfold le_of. intros Hxy Hyz.
  destruct (cmp x y) eqn:E1; [| |done].
  - by rewrite (tp_eq_l _ Hcmp x y z E1).
  - destruct (cmp y z) eqn:E2; [| |done].
    + by rewrite <-(tp_eq_r y z x E2), E1.
    + by rewrite (tp_trans_lt _ Hcmp x y z E1 E2).
Qed.

Lemma insert_sorted_sorted x l :
  StronglySorted (le_of cmp) l →
  StronglySorted (le_of cmp) (insert_sorted cmp x l).
Proof.
  induction 1 as [|y l Hl IH Hy]; simpl.
  { repeat constructor. }
  destruct (cmp x y) eqn:E.
  - constructor; [by constructor|].
    constructor; [unfold le_of; congruence|].
    eapply Forall_impl; [exact Hy|]. intros z Hz.
    eapply le_of_trans; [|exact Hz]. unfold le_of; congruence.
  - constructor; [by constructor|].
    constructor; [unfold le_of; congruence|].
    eapply Forall_impl; [exact Hy|]. intros z Hz.
    eapply le_of_trans; [|exact Hz]. unfold le_of; congruence.
  - constructor; [done|].
    rewrite insert_sorted_perm. constructor; [|done].
    apply le_of_total. unfold le_of. by rewrite E; intros [].
Qed.

Lemma stable_sort_sorted l : StronglySorted (le_of cmp) (stable_sort cmp l).
Proof.
  induction l as [|x l IH]; simpl; [constructor|].
  by apply insert_sorted_sorted.
Qed.
End StableSortFacts.

(** ** The orders on cells, key tuples and rows *)

Lemma string_compare_refl s : String.compare s s = Eq.
Proof.
  induction s as [|a s IH]; simpl; [done|].
  unfold Ascii.compare. by rewrite N.compare_refl.
Qed.

Lemma string_compare_lt s t :
  String.compare s t = Lt ↔ String.le s t ∧ s ≠ t.
Proof.
  unfold String.le, String.leb. split.
  - intros E. rewrite E. split; [done|].
    intros ->. by rewrite string_compare_refl in E.
  - intros [Hle Hne]. destruct (String.compare s t) eqn:E; [|done|done].
    by apply String.compare_eq_iff in E.
Qed.

Lemma string_compare_total_preorder : total_preorder String.compare.
Proof.
  split.
  - apply string_compare_refl.
  - intros s t. apply String.compare_antisym.
  - intros s t u [H1 N1]%string_compare_lt [H2 N2]%string_compare_lt.
    apply string_compare_lt. split; [by etrans|].
    intros ->. destruct N1. by apply (anti_symm String.le).
  - by intros s t u ->%String.compare_eq_iff.
Qed.

Lemma Qc_compare_total_preorder : total_preorder Qccompare.
Proof.
  split.
  - intros x. by apply Qceq_alt.
  - intros x y. unfold Qccompare. symmetry. apply Qcompare_antisym.
  - intros x y z ?%Qclt_alt ?%Qclt_alt. apply Qclt_alt. by eapply Qclt_trans.
  - by intros x y z ->%Qceq_alt.
Qed.

Lemma cell_compare_eq a b : cell_compare a b = Eq → a = b.
Proof.
  destruct a, b; simpl; try done.
  - by intros ->%String.compare_eq_iff.
  - by intros ->%Qceq_alt.
Qed.

Lemma cell_compare_total_preorder : total_preorder cell_compare.
Proof.
  split.
  - intros [s|q|]; simpl; [apply string_compare_refl|by apply Qceq_alt|done].
  - intros [s|p|] [t|q|]; simpl; try done.
    + apply (tp_antisym _ string_compare_total_preorder).
    + apply (tp_antisym _ Qc_compare_total_preorder).
  - intros [s|p|] [t|q|] [u|r|]; simpl; try done.
    + apply (tp_trans_lt _ string_compare_total_preorder).
    + apply (tp_trans_lt _ Qc_compare_total_preorder).
  - by intros a b c ->%cell_compare_eq.
Qed.

Lemma dir_compare_eq ascending a b : dir_compare ascending a b = Eq → a = b.
Proof.
  destruct ascending; simpl; [apply cell_compare_eq|].
  destruct a, b; try done; intros E%cell_compare_eq; congruence.
Qed.

Lemma dir_compare_total_preorder ascending :
  total_preorder (dir_compare ascending).
Proof.
  destruct ascending; [apply cell_compare_total_preorder|].
  pose proof cell_compare_total_preorder as H.
  split.
  - intros [s|q|]; unfold dir_compare; lazy beta iota; try done;
      apply (tp_refl _ H).
  - intros [s|p|] [t|q|]; unfold dir_compare; lazy beta iota; try done;
      apply (tp_antisym _ H).
  - intros [s|p|] [t|q|] [u|r|]; unfold dir_compare; lazy beta iota;
      try done; intros E1 E2; by apply (tp_trans_lt _ H _ _ _ E2 E1).
  - by intros a b c ->%(dir_compare_eq false).
Qed.

(** A lexicographic sequence of total preorders on projections is one. *)
Lemma row_compare_total_preorder by_ : total_preorder (row_compare by_).
Proof.
  induction by_ as [|[c asc] by_ IH]; [by split|].
  pose proof (dir_compare_total_preorder asc) as H.
  split.
  - intros r. simpl. by rewrite (tp_refl _ H), (tp_refl _ IH).
  - intros r1 r2. simpl. rewrite (tp_antisym _ H (get r1 c) (get r2 c)).
    destruct (dir_compare asc (get r1 c) (get r2 c)); simpl; try done.
    apply (tp_antisym _ IH).
  - intros r1 r2 r3. simpl.
    destruct (dir_compare asc (get r1 c) (get r2 c)) eqn:E1; try done.
    + apply dir_compare_eq in E1. rewrite E1.
      destruct (dir_compare asc (get r2 c) (get r3 c)); try done.
      apply (tp_trans_lt _ IH).
    + intros _.
      destruct (dir_compare asc (get r2 c) (get r3 c)) eqn:E2; try done.
      * apply dir_compare_eq in E2. by rewrite <-E2, E1.
      * by rewrite (tp_trans_lt _ H _ _ _ E1 E2).
  - intros r1 r2 r3. simpl.
    destruct (dir_compare asc (get r1 c) (get r2 c)) eqn:E1; try done.
    apply dir_compare_eq in E1. rewrite E1. intros E.
    by rewrite (tp_eq_l _ IH _ _ r3 E).
Qed.

Lemma sort_values_sorted by_ df :
  StronglySorted (le_of (row_compare by_)) (rows (Pd.sort_values by_ df)).
Proof. apply stable_sort_sorted, row_compare_total_preorder. Qed.

Lemma sort_values_perm by_ df : rows (Pd.sort_values by_ df) ≡ₚ rows df.
Proof. apply stable_sort_perm. Qed.

(** ** Sums *)

Lemma sum_cons c r l : Pd.sum c (r :: l) = (num (get r c) + Pd.sum c l)%Qc.
Proof. done. Qed.

Lemma sum_app c l1 l2 : Pd.sum c (l1 ++ l2) = (Pd.sum c l1 + Pd.sum c l2)%Qc.
Proof.
  induction l1 as [|r l1 IH]; simpl; [by rewrite Qcplus_0_l|].
  rewrite IH. apply Qcplus_assoc.
Qed.

Lemma sum_perm c l1 l2 : l1 ≡ₚ l2 → Pd.sum c l1 = Pd.sum c l2.
Proof.
  induction 1 as [|r l1 l2 _ IH|r1 r2 l|l1 l2 l3 _ IH1 _ IH2]; simpl.
  - done.
  - by rewrite IH.
  - rewrite !Qcplus_assoc. f_equal. apply Qcplus_comm.
  - by rewrite IH1.
Qed.

(** Two filters that exclude each other split the sum of their union. *)
Lemma sum_filter_disjoint c (P Q : gmap string cell → Prop)
    `{!∀ r, Decision (P r)} `{!∀ r, Decision (Q r)} l :
  (∀ r, P r → Q r → False) →
  (Pd.sum c (filter P l) + Pd.sum c (filter Q l))%Qc
  = Pd.sum c (filter (λ r, P r ∨ Q r) l).
Proof.
  intros HPQ. induction l as [|r l IH]; simpl; [apply Qcplus_0_l|].
  rewrite !filter_cons.
  destruct (decide (P r)) as [HP|HP], (decide (Q r)) as [HQ|HQ].
  - by destruct (HPQ r).
  - rewrite decide_True by tauto. simpl. by rewrite <-IH, Qcplus_assoc.
  - rewrite decide_True by tauto. simpl. rewrite <-IH.
    rewrite !Qcplus_assoc. f_equal. apply Qcplus_comm.
  - rewrite decide_False by tauto. done.
Qed.

Lemma filter_ext_in {A} (P Q : A → Prop)
    `{!∀ x, Decision (P x)} `{!∀ x, Decision (Q x)} (l : list A) :
  (∀ x, x ∈ l → P x ↔ Q x) → filter P l = filter Q l.
Proof.
  induction l as [|x l IH]; intros Hin; [done|].
  rewrite !filter_cons.
  assert (P x ↔ Q x) as Hx by (apply Hin; left).
  rewrite IH by (intros y Hy; apply Hin; by right).
  destruct (decide (P x)), (decide (Q x)); tauto.
Qed.

(** ** Grouping *)

Section GroupFacts.
Context (keys : list string) (measure : string).
Implicit Types (rs : list (gmap string cell)) (k : list cell).

Lemma notna_on_key_of r :
  Pd.notna_on keys r = forallb (λ c, negb (isna c)) (Pd.key_of keys r).
Proof.
  unfold Pd.notna_on, Pd.key_of. induction keys as [|c cs IH]; simpl; [done|].
  by rewrite IH.
Qed.

Lemma group_keys_NoDup rs : NoDup (Pd.group_keys keys rs).
Proof.
  unfold Pd.group_keys. rewrite stable_sort_perm. apply NoDup_remove_dups.
Qed.

Lemma elem_of_group_keys rs k :
  k ∈ Pd.group_keys keys rs ↔
  ∃ r, r ∈ rs ∧ Pd.notna_on keys r = true ∧ Pd.key_of keys r = k.
Proof.
  unfold Pd.group_keys.
  rewrite elem_of_stable_sort, elem_of_remove_dups, list_elem_of_fmap.
  split.
  - intros (r & -> & [? ?]%list_elem_of_filter). eauto.
  - intros (r & ? & ? & <-). exists r. by rewrite list_elem_of_filter.
Qed.

Lemma group_keys_notna rs k :
  k ∈ Pd.group_keys keys rs → Forall (λ c, c ≠ CNaN) k.
Proof.
  intros (r & _ & Hr & <-)%elem_of_group_keys.
  rewrite notna_on_key_of in Hr. apply Forall_forall. intros c Hc ->.
  rewrite forallb_forall in Hr. apply list_elem_of_In, Hr in Hc. done.
Qed.

Lemma group_keys_length rs k :
  k ∈ Pd.group_keys keys rs → length k = length keys.
Proof.
  intros (r & _ & _ & <-)%elem_of_group_keys.
  unfold Pd.key_of. by rewrite length_fmap.
Qed.

Lemma get_group_row_measure rs k :
  get (Pd.group_row keys measure rs k) measure
  = CNum (Pd.sum measure (Pd.group_rows keys k rs)).
Proof. unfold get, Pd.group_row. by rewrite lookup_insert_eq. Qed.

(** The sum of the group sums over a duplicate-free list of keys is the sum
    over the rows that carry one of these keys. *)
Lemma sum_group_rows rs ks :
  NoDup ks →
  Pd.sum measure (Pd.group_row keys measure rs <$> ks)
  = Pd.sum measure (filter (λ r, Pd.key_of keys r ∈ ks) rs).
Proof.
  induction 1 as [|k ks Hk _ IH].
  - induction rs as [|r rs' IH']; [done|].
    rewrite filter_cons_False; [done|]. by intros ?%elem_of_nil.
  - rewrite fmap_cons, sum_cons, get_group_row_measure, IH.
    unfold Pd.group_rows. simpl num.
    rewrite sum_filter_disjoint.
    + f_equal. apply filter_ext_in. intros r _.
      rewrite elem_of_cons. naive_solver.
    + intros r -> ?. done.
Qed.

(** Grouping leaves out exactly the rows with a missing key: the group sums
    add up to the sum over the rows whose key is present. *)
Lemma sum_groupby_sum df :
  Pd.sum measure (rows (Pd.groupby_sum keys measure df))
  = Pd.sum measure (filter (λ r, Pd.notna_on keys r = true) (rows df)).
Proof.
  simpl. rewrite sum_group_rows by apply group_keys_NoDup.
  f_equal. apply filter_ext_in. intros r Hr.
  rewrite elem_of_group_keys. split.
  - intros (r' & _ & Hna & Hk).
    by rewrite notna_on_key_of, <-Hk, <-notna_on_key_of.
  - intros Hna. by exists r.
Qed.
End GroupFacts.

(** ** The Loader *)

Lemma prefix_spec p s :
  String.prefix p s = true ↔ ∃ rest, s = p +:+ rest.
Proof.
  revert s. induction p as [|a p IH]; intros s.
  { split; [by exists s|]. by destruct s. }
  destruct s as [|b s]; [by split; [|intros [? ?]]|].
  change (String.prefix (String a p) (String b s))
    with (if ascii_dec a b then String.prefix p s else false).
  destruct (ascii_dec a b) as [->|Hab].
  - rewrite IH. split; intros [rest E]; exists rest.
    + by rewrite E.
    + by injection E.
  - split; [done|]. intros [rest E]. by injection E.
Qed.

Lemma is_year_sheet_spec s :
  is_year_sheet s = true ↔ ∃ rest, Str.lower s = "year" +:+ rest.
Proof. apply prefix_spec. Qed.

Lemma elem_of_year_sheets wb s :
  s ∈ year_sheets wb ↔ s ∈ wb ∧ is_year_sheet (sheet_name s) = true.
Proof. unfold year_sheets. rewrite list_elem_of_filter. tauto. Qed.

Lemma read_year_sheets_inr wb df :
  read_year_sheets wb = inr df ↔
  year_sheets wb ≠ [] ∧ df = Pd.concat (year_frame <$> year_sheets wb).
Proof.
  unfold read_year_sheets. destruct (year_sheets wb) as [|s l]; simpl.
  - split; [done|]. by intros [[] _].
  - split; [by intros [= <-]|]. by intros [_ ->].
Qed.

Lemma read_year_sheets_inl wb e :
  read_year_sheets wb = inl e ↔
  year_sheets wb = [] ∧
  e = ValueError "No 'Year ...' sheets found in the workbook.".
Proof.
  unfold read_year_sheets. destruct (year_sheets wb) as [|s l]; simpl.
  - split; [by intros [= <-]|]. by intros [_ ->].
  - split; [done|]. by intros [? _].
Qed.

Lemma get_year_frame sheet r :
  r ∈ rows (year_frame sheet) →
  get r "Year" = CStr (year_label (sheet_name sheet)).
Proof.
  unfold year_frame. simpl. intros (r' & -> & _)%list_elem_of_fmap.
  unfold get. by rewrite lookup_insert_eq.
Qed.

Lemma length_rows_year_frame sheet :
  length (rows (year_frame sheet)) = length (body sheet).
Proof. simpl. by rewrite !length_fmap. Qed.

Lemma length_rows_concat frames :
  length (rows (Pd.concat frames)) = sum_list (length ∘ rows <$> frames).
Proof.
  unfold Pd.concat; cbn [rows].
  induction frames as [|df frames IH]; [done|].
  rewrite bind_cons, length_app, IH. done.
Qed.

Lemma rows_concat_year_lengths (l : list Sheet) :
  length (rows (Pd.concat (year_frame <$> l)))
  = sum_list (length ∘ body <$> l).
Proof.
  rewrite length_rows_concat. f_equal. rewrite <-list_fmap_compose.
  apply list_fmap_ext. intros _ sheet _. apply length_rows_year_frame.
Qed.


Lemma rows_concat_year_frames (l : list Sheet) :
  rows (Pd.concat (year_frame <$> l)) = l ≫= (rows ∘ year_frame).
Proof.
  unfold Pd.concat; cbn [rows].
  induction l as [|s l IH]; [done|].
  by rewrite fmap_cons, !bind_cons, IH.
Qed.

(** *** [str.replace] against [str.removeprefix] *)

Lemma replace_go_skip old new k s :
  Str.replace_go old new k s = Str.replace_go old new 0 (Str.skipn k s).
Proof.
  revert k. induction s as [|c s IH]; intros [|k]; try done.
  cbn [Str.replace_go Str.skipn]. apply IH.
Qed.

Lemma replace_go_absent old new s :
  Str.contains old s = false → Str.replace_go old new 0 s = s.
Proof.
  induction s as [|c s IH]; [done|].
  cbn [Str.contains Str.replace_go].
  intros [Hp Hs]%orb_false_elim. rewrite Hp. f_equal. by apply IH.
Qed.

Lemma replace_go_prefix old new s :
  old ≠ EmptyString → String.prefix old s = true →
  Str.replace_go old new 0 s
  = new +:+ Str.replace_go old new 0 (Str.skipn (String.length old) s).
Proof.
  intros Hold Hp. destruct s as [|c s].
  { by destruct old. }
  cbn [Str.replace_go]. rewrite Hp. f_equal.
  rewrite replace_go_skip. destruct old as [|a old]; [done|].
  replace (String.length (String a old) - 1) with (String.length old)
    by (simpl; lia).
  done.
Qed.

Lemma year_label_removeprefix name :
  Str.contains "Year " (Str.removeprefix "Year " name) = false →
  year_label name = year_label_spec name.
Proof.
  unfold year_label, year_label_spec, Str.removeprefix. intros H. f_equal.
  change (Str.replace "Year " EmptyString name)
    with (Str.replace_go "Year " EmptyString 0 name).
  destruct (String.prefix "Year " name) eqn:Hp.
  - rewrite replace_go_prefix by done. by rewrite replace_go_absent.
  - by apply replace_go_absent.
Qed.

(** C4 (amended): the Loader takes exactly the sheets whose lower-cased name
    starts with "year"; the rows of such a sheet get as Year the sheet name
    with every occurrence of "Year " removed, then trimmed.  This is the name
    without its "Year " prefix, trimmed, whenever "Year " does not occur again
    behind the prefix. *)
Theorem C4_year_sheets_and_labels (wb : list Sheet) :
  (∀ s, s ∈ year_sheets wb ↔
        s ∈ wb ∧ ∃ rest, Str.lower (sheet_name s) = "year" +:+ rest) ∧
  (∀ df, read_year_sheets wb = inr df →
         rows df = year_sheets wb ≫= (rows ∘ year_frame)) ∧
  (∀ s r, s ∈ year_sheets wb → r ∈ rows (year_frame s) →
     get r "Year"
       = CStr (Str.strip (Str.replace "Year " EmptyString (sheet_name s))) ∧
     (Str.contains "Year " (Str.removeprefix "Year " (sheet_name s)) = false →
      get r "Year" = CStr (year_label_spec (sheet_name s)))).
Proof.
  split; [|split].
  - intros s. by rewrite elem_of_year_sheets, is_year_sheet_spec.
  - intros df [_ ->]%read_year_sheets_inr. apply rows_concat_year_frames.
  - intros s r _ Hr. apply get_year_frame in Hr. split; [done|].
    intros H. by rewrite Hr, year_label_removeprefix.
Qed.

(** The sheet "Year 1 Year 2" is taken, and its rows are labelled "1 2", not
    "1 Year 2". *)
Lemma C4_label_is_not_prefix_strip :
  sheet_two_labels ∈ year_sheets [sheet_notes; sheet_two_labels] ∧
  Forall (λ r, get r "Year" = CStr "1 2"
               ∧ get r "Year"
                 ≠ CStr (year_label_spec (sheet_name sheet_two_labels)))
         (rows (year_frame sheet_two_labels)) ∧
  rows (year_frame sheet_two_labels) ≠ [].
Proof.
  split; [|split].
  - apply elem_of_year_sheets. split; [|done]. set_solver.
  - apply Forall_forall. intros r Hr%get_year_frame. rewrite Hr.
    split; [done|]. vm_compute. by intros [=].
  - done.
Qed.

Lemma C4_witness :
  get (<["Year" := CStr "2020"]> {["Trade volume" := int 100]}) "Year"
  = CStr (year_label_spec "Year 2020").
Proof.
  refine (proj2 (proj2 (proj2 (C4_year_sheets_and_labels wb_scenario))
                   sheet_2020 _ _ _) _).
  - apply elem_of_year_sheets. split; [|done]. set_solver.
  - vm_compute. left.
  - done.
Defined.


(** ** [main] step by step *)

Lemma main_unfold parse wb fs :
  main parse wb fs =
  match read_year_sheets wb with
  | inl e => (fs, inl e)
  | inr df =>
      match normalize parse df with
      | inl e => (fs, inl e)
      | inr df' => reports df' fs
      end
  end.
Proof.
  unfold main, mbind, M_bind, lift.
  destruct (read_year_sheets wb) as [e|df]; [done|].
  by destruct (normalize parse df).
Qed.

Lemma year_sheets_nil wb :
  year_sheets wb = [] ↔
  Forall (λ s, is_year_sheet (sheet_name s) = false) wb.
Proof.
  unfold year_sheets. induction wb as [|s wb IH]; [by split|].
  rewrite filter_cons, Forall_cons, <-IH.
  destruct (decide (is_year_sheet (sheet_name s) = true)) as [E|E].
  - split; [done|]. intros [? _]. congruence.
  - apply not_true_is_false in E. tauto.
Qed.

(** C5: without a sheet whose name starts with "year" (in any letter case)
    the Loader raises its data error, the run ends with a non-zero status and
    nothing is written; with such a sheet the Loader returns a frame. *)
Theorem C5_loader_fails_iff_no_year_sheet
    (parse : string → option Qc) (wb : list Sheet) :
  (Forall (λ s, is_year_sheet (sheet_name s) = false) wb →
     (∃ msg, read_year_sheets wb = inl (ValueError msg)
             ∧ main parse wb [] = ([], inl (ValueError msg))) ∧
     (∃ status, run parse wb = ([], status) ∧ status ≠ 0%Z)) ∧
  (Exists (λ s, is_year_sheet (sheet_name s) = true) wb →
     ∃ df, read_year_sheets wb = inr df).
Proof.
  split.
  - intros Hnil%year_sheets_nil.
    assert (read_year_sheets wb
            = inl (ValueError "No 'Year ...' sheets found in the workbook."))
      as E by (by apply read_year_sheets_inl).
    split.
    + eexists. split; [exact E|]. by rewrite main_unfold, E.
    + exists 1%Z. split; [|done]. unfold run. by rewrite main_unfold, E.
  - intros (s & Hs & Hy)%Exists_exists.
    exists (Pd.concat (year_frame <$> year_sheets wb)).
    apply read_year_sheets_inr. split; [|done].
    intros Hnil. assert (s ∈ year_sheets wb) as Hin
      by (by apply elem_of_year_sheets).
    rewrite Hnil in Hin. by apply elem_of_nil in Hin.
Qed.

Lemma C5_witness :
  (∃ status, run parse_digits wb_notes = ([], status) ∧ status ≠ 0%Z) ∧
  (∃ df, read_year_sheets wb_scenario = inr df).
Proof.
  split.
  - apply (C5_loader_fails_iff_no_year_sheet parse_digits wb_notes).
    repeat constructor.
  - apply (C5_loader_fails_iff_no_year_sheet parse_digits wb_scenario).
    apply Exists_cons_hd. reflexivity.
Defined.

(** ** Which files a run writes *)

Lemma csv_paths_app fs1 fs2 :
  csv_paths (fs1 ++ fs2) = csv_paths fs1 ++ csv_paths fs2.
Proof. apply omap_app. Qed.

Section Writes.
Context {A B : Type}.
Implicit Types (m : M A) (f : A → M B).

Lemma bind_run m f fs :
  (m ≫= f) fs =
  match m fs with
  | (fs', inr x) => f x fs'
  | (fs', inl e) => (fs', inl e)
  end.
Proof. done. Qed.

Lemma writes_ret (x : A) : writes (mret x) [].
Proof.
  intros fs. split; [|done]. exists []. simpl. by rewrite app_nil_r.
Qed.

Lemma succeeds_ret (x : A) : succeeds (mret x).
Proof. intros fs. by exists x. Qed.

Lemma writes_bind m f l1 l2 :
  succeeds m → writes m l1 → (∀ x, writes (f x) l2) →
  writes (m ≫= f) (l1 ++ l2).
Proof.
  intros Hs Hm Hf fs. rewrite bind_run.
  destruct (Hs fs) as [x Hx], (Hm fs) as [(out1 & Hfs & Hp) _].
  destruct (m fs) as [fs' r]; simpl in *. subst r fs'.
  destruct (Hf x (fs ++ out1)) as [(out2 & Hfs' & Hp') He].
  split; [|done]. exists (out1 ++ out2).
  by rewrite Hfs', csv_paths_app, Hp, Hp', (assoc_L (++)).
Qed.

Lemma writes_bind_last m f l :
  writes m l → (∀ x, writes (f x) []) → writes (m ≫= f) l.
Proof.
  intros Hm Hf fs. rewrite bind_run.
  destruct (Hm fs) as [(out1 & Hfs & Hp) He].
  destruct (m fs) as [fs' [e|x]]; simpl in *; subst fs'.
  { split; [by exists out1|]. intros e' [= <-]. by apply He. }
  destruct (Hf x (fs ++ out1)) as [(out2 & Hfs' & Hp') He'].
  split; [|done]. exists (out1 ++ out2).
  by rewrite Hfs', csv_paths_app, Hp, Hp', (assoc_L (++)), app_nil_r.
Qed.

Lemma succeeds_bind m f :
  succeeds m → (∀ x, succeeds (f x)) → succeeds (m ≫= f).
Proof.
  intros Hm Hf fs. rewrite bind_run. destruct (Hm fs) as [x Hx].
  destruct (m fs) as [fs' r]; simpl in *. subst r. apply Hf.
Qed.
End Writes.

Lemma writes_save_table df name :
  writes (save_table df name) [out_path (name +:+ ".csv")].
Proof. intros fs. split; [|done]. by eexists [_]. Qed.

Lemma succeeds_save_table df name : succeeds (save_table df name).
Proof. intros fs. by eexists. Qed.

Lemma writes_png p : writes (write (Png p)) [].
Proof. intros fs. split; [|done]. by exists [Png p]. Qed.

Lemma succeeds_write f : succeeds (write f).
Proof. intros fs. by eexists. Qed.

Lemma writes_for_each {A} (l : list A) (f : A → M unit) :
  (∀ x, writes (f x) []) → writes (for_each l f) [].
Proof.
  intros Hf. induction l as [|x l IH]; simpl.
  - apply writes_ret.
  - by apply writes_bind_last.
Qed.

Lemma succeeds_for_each {A} (l : list A) (f : A → M unit) :
  (∀ x, succeeds (f x)) → succeeds (for_each l f).
Proof.
  intros Hf. induction l as [|x l IH]; simpl.
  - apply succeeds_ret.
  - by apply succeeds_bind.
Qed.

Lemma writes_plot_per_year top prefix : writes (plot_per_year top prefix) [].
Proof. apply writes_for_each. intros y. apply writes_png. Qed.

Lemma succeeds_plot_per_year top prefix : succeeds (plot_per_year top prefix).
Proof. apply succeeds_for_each. intros y. apply succeeds_write. Qed.

Lemma writes_when (b : bool) m l :
  (b = true → writes m l) → writes (when b m) (if b then l else []).
Proof. destruct b; simpl; [auto|]. intros _. apply (writes_ret ()). Qed.

Lemma succeeds_when (b : bool) m :
  (b = true → succeeds m) → succeeds (when b m).
Proof. destruct b; simpl; [auto|]. intros _. apply (succeeds_ret ()). Qed.

Lemma writes_muni_chart m :
  writes (slug ← lift (muni_slug m);
          barh_plot ("G2_exporters_top_" +:+ slug +:+ ".png")) [].
Proof.
  apply writes_bind_last.
  - intros fs. split.
    + exists []. simpl. by rewrite app_nil_r.
    + destruct m; simpl; congruence.
  - intros slug. apply writes_png.
Qed.

Local Ltac step :=
  first
    [ apply succeeds_save_table | apply succeeds_write
    | apply succeeds_plot_per_year | apply writes_png
    | apply writes_plot_per_year | apply writes_save_table ].

Lemma report_A_writes df :
  writes (report_A df) ["outputs/summary_trade_volume_by_year.csv"]
  ∧ succeeds (report_A df).
Proof.
  split.
  - apply (writes_bind _ _ [_] []); intros; step.
  - apply succeeds_bind; intros; step.
Qed.

Lemma report_B_writes df :
  writes (report_B df)
    (if has_column "Country of destination" df
     then ["outputs/summary_trade_volume_by_destination_country.csv"]
     else [])
  ∧ succeeds (report_B df).
Proof.
  split.
  - apply writes_when. intros _.
    apply (writes_bind _ _ [_] []); intros; step.
  - apply succeeds_when. intros _. apply succeeds_bind; intros; step.
Qed.

Lemma report_C_writes df :
  writes (report_C df)
    (if has_column "Exporter" df
     then ["outputs/summary_trade_volume_by_exporter.csv"] else [])
  ∧ succeeds (report_C df).
Proof.
  split.
  - apply writes_when. intros _.
    apply (writes_bind _ _ [_] []); intros; step.
  - apply succeeds_when. intros _. apply succeeds_bind; intros; step.
Qed.

Lemma report_D_writes df :
  writes (report_D df)
    (if has_column "Importer" df
     then ["outputs/top3_importers_per_year.csv"] else [])
  ∧ succeeds (report_D df).
Proof.
  split.
  - apply writes_when. intros _.
    apply (writes_bind _ _ [_] []); intros; step.
  - apply succeeds_when. intros _. apply succeeds_bind; intros; step.
Qed.

Lemma report_E_writes df :
  writes (report_E df)
    (if has_column "Country of destination" df
     then ["outputs/top3_destination_countries_per_year.csv"] else [])
  ∧ succeeds (report_E df).
Proof.
  split.
  - apply writes_when. intros _.
    apply (writes_bind _ _ [_] []); intros; step.
  - apply succeeds_when. intros _. apply succeeds_bind; intros; step.
Qed.

Lemma report_F_writes df :
  writes (report_F df)
    (if has_column "Coffee bean" df
     then ["outputs/summary_trade_volume_by_coffee_bean.csv";
           "outputs/top1_coffee_bean_per_year.csv"]
     else [])
  ∧ succeeds (report_F df).
Proof.
  split.
  - apply writes_when. intros _.
    apply (writes_bind _ _ [_] [_]); [step|step|intros _].
    apply (writes_bind _ _ [] [_]); [step|step|intros _].
    apply (writes_bind _ _ [_] []); intros; step.
  - apply succeeds_when. intros _.
    repeat (apply succeeds_bind; [step|intros _]). step.
Qed.

Lemma report_G_writes df :
  writes (report_G df)
    (if has_column "Municipality of export" df
     then "outputs/summary_trade_volume_by_municipality.csv"
          :: (if has_column "Exporter" df
              then ["outputs/exporters_in_top5_municipalities.csv"]
              else [])
     else []).
Proof.
  apply writes_when. intros _.
  apply (writes_bind _ _ [_] _); [step|step|intros _].
  apply (writes_bind _ _ [] _); [step|step|intros _].
  apply writes_when. intros _.
  apply writes_bind_last; [step|intros _].
  apply writes_for_each. intros m. apply writes_muni_chart.
Qed.

(** The reports B to G. *)
Lemma later_reports_writes df :
  writes (report_B df ;; report_C df ;; report_D df ;; report_E df ;;
          report_F df ;; report_G df ;; mret 0%Z)
    (drop 2 (expected_csvs df)).
Proof.
  unfold expected_csvs. cbn [app drop].
  apply writes_bind; [apply report_B_writes..|intros _].
  apply writes_bind; [apply report_C_writes..|intros _].
  apply writes_bind; [apply report_D_writes..|intros _].
  apply writes_bind; [apply report_E_writes..|intros _].
  apply writes_bind; [apply report_F_writes..|intros _].
  apply writes_bind_last; [apply report_G_writes|intros _].
  apply writes_ret.
Qed.

Lemma reports_writes df : writes (reports df) (expected_csvs df).
Proof.
  unfold reports, expected_csvs.
  apply (writes_bind _ _ [_] _); [step|step|intros _].
  apply (writes_bind _ _ [_] _); [apply report_A_writes..|intros _].
  apply writes_bind; [apply report_B_writes..|intros _].
  apply writes_bind; [apply report_C_writes..|intros _].
  apply writes_bind; [apply report_D_writes..|intros _].
  apply writes_bind; [apply report_E_writes..|intros _].
  apply writes_bind; [apply report_F_writes..|intros _].
  apply writes_bind_last; [apply report_G_writes|intros _].
  apply writes_ret.
Qed.

(** [reports] ends with [return 0]. *)
Lemma reports_status df fs status :
  (reports df fs).2 = inr status → status = 0%Z.
Proof.
  unfold reports. rewrite !bind_run.
  repeat (match goal with
          | |- context [match ?m ?fs with _ => _ end] =>
              destruct (m fs) as [? [?|?]]
          | |- context [match ?x with _ => _ end] =>
              destruct x as [? [?|?]]
          end; rewrite ?bind_run); simpl; congruence.
Qed.

(** ** The Normalizer *)

Lemma notna_on_volume r :
  Pd.notna_on ["Trade volume"] r = true ↔ get r "Trade volume" ≠ CNaN.
Proof.
  unfold Pd.notna_on; simpl. by destruct (get r "Trade volume").
Qed.

Section Normalizer.
Context (parse : string → option Qc).

Lemma to_numeric_cases c :
  (∃ v, to_numeric parse c = CNum v) ∨ to_numeric parse c = CNaN.
Proof. destruct c as [s|q|]; simpl; [destruct (parse s)|..]; eauto. Qed.

(** A value is dropped exactly when it is missing or does not parse. *)
Lemma to_numeric_nan c :
  to_numeric parse c = CNaN ↔ c = CNaN ∨ ∃ s, c = CStr s ∧ parse s = None.
Proof.
  destruct c as [s|q|]; simpl.
  - destruct (parse s) eqn:E; split; try done.
    + intros [?|(? & [= <-] & ?)]; congruence.
    + intros _. right. by exists s.
  - split; [done|]. by intros [?|(? & ? & _)].
  - split; [by left|done].
Qed.

Lemma coerce_numeric_eq df cols :
  coerce_numeric parse df cols
  = {| columns := columns df;
       rows := coerce_row parse (columns df) cols <$> rows df |}.
Proof.
  revert df. induction cols as [|c cols IH]; intros [cs rs].
  { simpl. by rewrite list_fmap_id. }
  unfold coerce_numeric in *. cbn [foldl]. rewrite IH. cbn [columns rows].
  destruct (decide (c ∈ cs)) as [Hc|Hc].
  - unfold Pd.setitem; cbn [columns rows]. rewrite decide_True by done.
    f_equal. rewrite <-list_fmap_compose. apply list_fmap_ext.
    intros _ r _. unfold coerce_row; simpl. by rewrite decide_True.
  - f_equal. apply list_fmap_ext.
    intros _ r _. unfold coerce_row; simpl. by rewrite decide_False.
Qed.

Lemma normalize_eq df :
  normalize parse df =
  if decide ("Trade volume" ∈ columns df) then
    inr {| columns := (if decide ("Trade volume (t)" ∈ columns df)
                       then columns df
                       else columns df ++ ["Trade volume (t)"]);
           rows := filter (λ r, Pd.notna_on ["Trade volume"] r = true)
                     (normalize_row parse (columns df) <$> rows df) |}
  else inl (KeyError "Trade volume").
Proof.
  unfold normalize. rewrite coerce_numeric_eq. cbn [columns].
  destruct (decide ("Trade volume" ∈ columns df)); [|done].
  unfold Pd.dropna, Pd.setitem. cbn [columns rows].
  by rewrite <-list_fmap_compose.
Qed.

Lemma get_normalize_row_volume present r :
  "Trade volume" ∈ present →
  get (normalize_row parse present r) "Trade volume"
  = to_numeric parse (get r "Trade volume").
Proof.
  intros Hin. unfold normalize_row, coerce_row, get; simpl.
  destruct (decide ("Trade volume" ∈ present)); [|done].
  rewrite lookup_insert_ne by done.
  destruct (decide ("Trade value" ∈ present)).
  - rewrite lookup_insert_ne by done. by rewrite lookup_insert_eq.
  - by rewrite lookup_insert_eq.
Qed.

Lemma get_normalize_row_tons present r :
  get (normalize_row parse present r) "Trade volume (t)"
  = Pd.div_by (Qc_of_Z 1000)
      (get (normalize_row parse present r) "Trade volume").
Proof.
  unfold normalize_row. unfold get at 1. rewrite lookup_insert_eq. simpl.
  f_equal. unfold get. by rewrite lookup_insert_ne.
Qed.

Lemma load_unfold wb fs :
  main parse wb fs =
  match load parse wb with
  | inl e => (fs, inl e)
  | inr df => reports df fs
  end.
Proof.
  rewrite main_unfold. unfold load. by destruct (read_year_sheets wb).
Qed.
End Normalizer.

(** ** C1: which reports run *)

Lemma has_column_normalize parse df df' c :
  normalize parse df = inr df' → c ≠ "Trade volume (t)" →
  has_column c df' = has_column c df.
Proof.
  rewrite normalize_eq. destruct (decide ("Trade volume" ∈ columns df)); [|done].
  intros [= <-] Hc. unfold has_column. cbn [columns].
  destruct (decide ("Trade volume (t)" ∈ columns df)); [done|].
  apply bool_decide_ext. rewrite elem_of_app, list_elem_of_singleton. tauto.
Qed.

Lemma expected_csvs_normalize parse df df' :
  normalize parse df = inr df' → expected_csvs df' = expected_csvs df.
Proof.
  intros H. unfold expected_csvs.
  by rewrite !(has_column_normalize parse df df' _ H).
Qed.




(** ** C3: the rows the Normalizer keeps *)

Section Dropped.
Context (parse : string → option Qc).

Lemma normalize_rows df df' r' :
  normalize parse df = inr df' →
  r' ∈ rows df' ↔
  ∃ r, r ∈ rows df ∧ r' = normalize_row parse (columns df) r
       ∧ to_numeric parse (get r "Trade volume") ≠ CNaN.
Proof.
  rewrite normalize_eq.
  destruct (decide ("Trade volume" ∈ columns df)) as [Hin|]; [|done].
  intros [= <-]. cbn [rows].
  rewrite list_elem_of_filter, list_elem_of_fmap.
  change (negb (isna (get r' "Trade volume")) && true = true)
    with (Pd.notna_on ["Trade volume"] r' = true).
  rewrite notna_on_volume. split.
  - intros [Hna (r & -> & Hr)]. exists r.
    by rewrite get_normalize_row_volume in Hna.
  - intros (r & Hr & -> & Hna).
    rewrite get_normalize_row_volume by done. split; [done|]. by exists r.
Qed.

Lemma columns_concat frames :
  columns (Pd.concat frames)
  = foldl (λ acc cs, acc ++ list_difference cs acc) [] (columns <$> frames).
Proof.
  unfold Pd.concat; cbn [columns]. generalize (@nil string).
  induction frames as [|f frames IH]; intros acc; [done|]. apply IH.
Qed.

Lemma rows_concat_app l1 f l2 :
  rows (Pd.concat (l1 ++ f :: l2))
  = (l1 ≫= rows) ++ rows f ++ (l2 ≫= rows).
Proof. unfold Pd.concat; cbn [rows]. by rewrite bind_app, bind_cons. Qed.

Lemma rows_year_frame_with_body sheet b :
  rows (year_frame (with_body sheet b))
  = (λ line, <["Year" := CStr (year_label (sheet_name sheet))]>
               (list_to_map (zip (header sheet) line))) <$> b.
Proof.
  unfold year_frame, Pd.setitem, read_excel.
  cbn [rows with_body body header sheet_name].
  by rewrite <-list_fmap_compose.
Qed.

(** A grid line whose volume is missing or does not parse leaves the
    normalised frame as it is without the line. *)
Lemma load_insert_line wb1 sheet wb2 pre line post :
  to_numeric parse
    (get (list_to_map (zip (header sheet) line)) "Trade volume") = CNaN →
  load parse (wb1 ++ with_body sheet (pre ++ line :: post) :: wb2)
  = load parse (wb1 ++ with_body sheet (pre ++ post) :: wb2).
Proof.
  intros Hnan. unfold load, read_year_sheets, year_sheets.
  rewrite !filter_app, !filter_cons. cbn [with_body sheet_name].
  destruct (decide (is_year_sheet (sheet_name sheet) = true)); [|done].
  rewrite !fmap_app, !fmap_cons.
  set (F1 := year_frame <$> filter _ wb1).
  set (F2 := year_frame <$> filter _ wb2).
  set (fa := year_frame (with_body sheet (pre ++ line :: post))).
  set (fb := year_frame (with_body sheet (pre ++ post))).
  assert (∀ f, match F1 ++ f :: F2 with
               | [] => inl (ValueError
                         "No 'Year ...' sheets found in the workbook.")
               | _ => inr (Pd.concat (F1 ++ f :: F2))
               end = inr (Pd.concat (F1 ++ f :: F2))) as Hne
    by (intros f; by destruct F1).
  rewrite !Hne, !normalize_eq.
  assert (columns (Pd.concat (F1 ++ fa :: F2))
          = columns (Pd.concat (F1 ++ fb :: F2))) as Hcols
    by (by rewrite !columns_concat, !fmap_app, !fmap_cons).
  rewrite Hcols.
  destruct (decide ("Trade volume" ∈ _)) as [Hin|]; [|done].
  do 2 f_equal. rewrite !rows_concat_app.
  subst fa fb. rewrite !rows_year_frame_with_body.
  set (C := columns (Pd.concat _)) in *.
  rewrite !fmap_app, !fmap_cons, !filter_app, filter_cons_False; [done|].
  rewrite notna_on_volume, get_normalize_row_volume by done.
  intros Hna. apply Hna. unfold get at 1.
  by rewrite lookup_insert_ne.
Qed.
End Dropped.



(** ** C2: the order of the report rows *)

Lemma StronglySorted_impl_in {A} (R R' : relation A) (l : list A) :
  (∀ x y, x ∈ l → y ∈ l → R x y → R' x y) →
  StronglySorted R l → StronglySorted R' l.
Proof.
  intros Himpl Hl. induction Hl as [|x l Hl IH Hx]; [constructor|].
  constructor.
  - apply IH. intros y z Hy Hz. apply Himpl; by right.
  - apply Forall_forall. intros y Hy. apply Himpl; [by left|by right|].
    by eapply Forall_forall in Hx.
Qed.

Lemma StronglySorted_fmap {A B} (R : relation A) (R' : relation B)
    (f : A → B) (l : list A) :
  (∀ x y, R x y → R' (f x) (f y)) →
  StronglySorted R l → StronglySorted R' (f <$> l).
Proof.
  intros Hf. induction 1 as [|x l Hl IH Hx]; [constructor|].
  rewrite fmap_cons. constructor; [done|].
  apply Forall_fmap. eapply Forall_impl; [exact Hx|]. intros y. apply Hf.
Qed.

Lemma StronglySorted_sublist {A} (R : relation A) (l1 l2 : list A) :
  l1 `sublist_of` l2 → StronglySorted R l2 → StronglySorted R l1.
Proof.
  induction 1 as [|x l1 l2 Hsub IH|x l1 l2 Hsub IH]; intros Hl2.
  - done.
  - apply StronglySorted_inv in Hl2 as [Hl2 Hx]. constructor; [by apply IH|].
    rewrite Forall_forall in Hx |- *. intros y Hy. apply Hx.
    by eapply elem_of_sublist.
  - apply StronglySorted_inv in Hl2 as [Hl2 _]. by apply IH.
Qed.

Lemma groupby_sum_volume_num keys measure df r :
  r ∈ rows (Pd.groupby_sum keys measure df) → ∃ v, get r measure = CNum v.
Proof.
  cbn [Pd.groupby_sum rows]. intros (k & -> & _)%list_elem_of_fmap.
  rewrite get_group_row_measure. by eexists.
Qed.

(** On numbers, the descending sort key is the order of [volume_desc]. *)
Lemma dir_compare_desc_num v1 v2 :
  dir_compare false (CNum v1) (CNum v2) ≠ Gt ↔ (v2 ≤ v1)%Qc.
Proof. simpl. symmetry. apply Qcle_alt. Qed.

Lemma by_volume_sorted key df :
  StronglySorted volume_desc (rows (by_volume key df)).
Proof.
  unfold by_volume.
  eapply StronglySorted_impl_in; [|apply sort_values_sorted].
  intros r1 r2 Hr1 Hr2. rewrite sort_values_perm in Hr1, Hr2.
  apply groupby_sum_volume_num in Hr1 as [v1 Hv1].
  apply groupby_sum_volume_num in Hr2 as [v2 Hv2].
  unfold le_of, volume_desc, volume. cbn [row_compare].
  rewrite Hv1, Hv2. cbn [num]. intros H.
  apply (proj1 (dir_compare_desc_num v1 v2)).
  by destruct (dir_compare false (CNum v1) (CNum v2)).
Qed.

Lemma volume_with_percentage c r :
  volume (<["Porcentaje" := c]> r) = volume r.
Proof. unfold volume, get. by rewrite lookup_insert_ne. Qed.

Lemma with_percentage_sorted df :
  StronglySorted volume_desc (rows df) →
  StronglySorted volume_desc (rows (with_percentage df)).
Proof.
  unfold with_percentage, Pd.setitem. cbn [rows].
  apply StronglySorted_fmap. intros r1 r2. unfold volume_desc.
  by rewrite !volume_with_percentage.
Qed.

Lemma per_year_sorted df : StronglySorted year_asc (rows (per_year df)).
Proof.
  unfold per_year.
  eapply StronglySorted_impl_in; [|apply sort_values_sorted].
  intros r1 r2 _ _. unfold year_asc, le_of. cbn [row_compare dir_compare].
  by destruct (cell_compare (get r1 "Year") (get r2 "Year")).
Qed.

Lemma by_group_volume_sorted group key df :
  StronglySorted (group_then_volume_desc group)
    (rows (by_group_volume group key df)).
Proof.
  unfold by_group_volume.
  eapply StronglySorted_impl_in; [|apply sort_values_sorted].
  intros r1 r2 Hr1 Hr2. rewrite sort_values_perm in Hr1, Hr2.
  apply groupby_sum_volume_num in Hr1 as [v1 Hv1].
  apply groupby_sum_volume_num in Hr2 as [v2 Hv2].
  unfold le_of, group_then_volume_desc, volume_desc, volume.
  cbn [row_compare]. rewrite Hv1, Hv2. cbn [dir_compare num].
  destruct (cell_compare (get r1 group) (get r2 group)) eqn:E.
  - apply cell_compare_eq in E. intros H. right. split; [done|].
    apply (proj1 (dir_compare_desc_num v1 v2)). cbn [dir_compare].
    by destruct (cell_compare (CNum v2) (CNum v1)).
  - by left.
  - done.
Qed.

(** A group row holds its key tuple in the key columns. *)
Lemma key_of_group_row keys measure rs k :
  NoDup keys → measure ∉ keys → length k = length keys →
  Pd.key_of keys (Pd.group_row keys measure rs k) = k.
Proof.
  intros Hnd Hm Hlen. apply list_eq. intros i.
  unfold Pd.key_of. rewrite list_lookup_fmap.
  destruct (keys !! i) as [c|] eqn:Hc; simpl.
  - destruct (lookup_lt_is_Some_2 k i) as [v Hv].
    { rewrite Hlen. by eapply lookup_lt_Some. }
    rewrite Hv. f_equal. unfold get, Pd.group_row.
    rewrite lookup_insert_ne.
    + erewrite elem_of_list_to_map_1; [done| |].
      * by rewrite fst_zip by lia.
      * apply list_elem_of_lookup. exists i. by apply lookup_zip_Some.
    + intros ->. apply Hm. by eapply list_elem_of_lookup_2.
  - symmetry. apply lookup_ge_None. rewrite Hlen.
    by apply lookup_ge_None.
Qed.

(** What grouping and summing gives: one row per key tuple that occurs with
    all its parts present, holding the sum of the rows with that tuple. *)
Lemma groupby_sum_spec keys measure df :
  NoDup keys → measure ∉ keys →
  NoDup (Pd.key_of keys <$> rows (Pd.groupby_sum keys measure df)) ∧
  ∀ r, r ∈ rows (Pd.groupby_sum keys measure df) →
    Pd.notna_on keys r = true ∧
    (∃ r', r' ∈ rows df ∧ Pd.key_of keys r' = Pd.key_of keys r) ∧
    get r measure
    = CNum (Pd.sum measure
              (filter (λ r', Pd.key_of keys r' = Pd.key_of keys r) (rows df))).
Proof.
  intros Hnd Hm. cbn [Pd.groupby_sum rows].
  assert (∀ k, k ∈ Pd.group_keys keys (rows df) →
            Pd.key_of keys (Pd.group_row keys measure (rows df) k) = k) as Hk.
  { intros k Hk. apply key_of_group_row; [done..|].
    by eapply group_keys_length. }
  split.
  - rewrite <-list_fmap_compose.
    assert (Pd.key_of keys ∘ Pd.group_row keys measure (rows df)
              <$> Pd.group_keys keys (rows df)
            = Pd.group_keys keys (rows df)) as ->.
    { rewrite <-(list_fmap_id (Pd.group_keys keys (rows df))) at 2.
      apply list_fmap_ext. intros i k Hi. apply Hk.
      by eapply list_elem_of_lookup_2. }
    apply group_keys_NoDup.
  - intros r (k & -> & Hin)%list_elem_of_fmap.
    rewrite get_group_row_measure, (Hk k Hin).
    apply elem_of_group_keys in Hin as (r' & Hr' & Hna & <-).
    split; [|split; [by exists r'|done]].
    rewrite notna_on_key_of, Hk; [by rewrite <-notna_on_key_of|].
    apply elem_of_group_keys. by exists r'.
Qed.




(** ** C6 and C10: percentages and their denominator *)

Lemma get_percentage total r :
  get (<["Porcentaje" := Pd.percent_of total (get r "Trade volume")]> r)
    "Porcentaje"
  = Pd.percent_of total (get r "Trade volume").
Proof. unfold get at 1. by rewrite lookup_insert_eq. Qed.

Lemma sum_percentage total (l : list (gmap string cell)) :
  total ≠ 0%Qc →
  Forall (λ r, ∃ v, get r "Trade volume" = CNum v) l →
  Pd.sum "Porcentaje"
    ((λ r, <["Porcentaje" := Pd.percent_of total (get r "Trade volume")]> r)
       <$> l)
  = (Pd.sum "Trade volume" l / total * Qc_of_Z 100)%Qc.
Proof.
  intros Htotal. induction 1 as [|r l [v Hv] _ IH].
  { simpl. unfold Qcdiv. ring. }
  rewrite fmap_cons, !sum_cons, IH, get_percentage, Hv. simpl.
  rewrite decide_False by done. simpl. unfold Qcdiv. ring.
Qed.

Lemma by_volume_num key df :
  Forall (λ r, ∃ v, get r "Trade volume" = CNum v) (rows (by_volume key df)).
Proof.
  apply Forall_forall. intros r Hr. unfold by_volume in Hr.
  rewrite sort_values_perm in Hr. by eapply groupby_sum_volume_num.
Qed.




Lemma notna_on_singleton key r :
  Pd.notna_on [key] r = true ↔ get r key ≠ CNaN.
Proof. unfold Pd.notna_on; simpl. by destruct (get r key). Qed.

Lemma by_volume_key_present key df r :
  key ≠ "Trade volume" → r ∈ rows (by_volume key df) → get r key ≠ CNaN.
Proof.
  intros Hkey Hr. unfold by_volume in Hr. rewrite sort_values_perm in Hr.
  apply notna_on_singleton.
  apply (groupby_sum_spec [key] "Trade volume" df); [apply NoDup_singleton| |done].
  intros ?%list_elem_of_singleton. congruence.
Qed.

Lemma sum_by_volume key df :
  Pd.sum "Trade volume" (rows (by_volume key df))
  = Pd.sum "Trade volume" (filter (λ r, get r key ≠ CNaN) (rows df)).
Proof.
  unfold by_volume. rewrite (sum_perm _ _ _ (sort_values_perm _ _)).
  rewrite sum_groupby_sum. f_equal. apply filter_ext_in.
  intros r _. apply notna_on_singleton.
Qed.

(** C10: a report leaves the rows with a missing key out of its groups, so
    its total, the denominator of its percentages, is the volume of the rows
    whose key is present.  It can differ from one report to the other and
    from the volume of the whole table: in the sample frame the countries
    share 40, the exporters 30, and the table holds 60. *)
Theorem C10_missing_keys_are_left_out :
  (∀ (key : string) (df_all : DataFrame), key ≠ "Trade volume" →
     let present := filter (λ r, get r key ≠ CNaN) (rows df_all) in
     (∀ r, r ∈ rows (by_volume key df_all) → get r key ≠ CNaN) ∧
     Pd.sum "Trade volume" (rows (by_volume key df_all))
       = Pd.sum "Trade volume" present ∧
     (∀ r, r ∈ rows (with_percentage (by_volume key df_all)) →
        get r "Porcentaje"
        = Pd.percent_of (Pd.sum "Trade volume" present)
            (get r "Trade volume"))) ∧
  (Pd.sum "Trade volume" (rows (by_volume "Country of destination" df_full))
     = Qc_of_Z 40 ∧
   Pd.sum "Trade volume" (rows (by_volume "Exporter" df_full)) = Qc_of_Z 30 ∧
   Pd.sum "Trade volume" (rows df_full) = Qc_of_Z 60).
Proof.
  split.
  - intros key df_all Hkey present. split; [|split].
    + intros r. by apply by_volume_key_present.
    + apply sum_by_volume.
    + unfold with_percentage, Pd.setitem. cbn [rows].
      intros r' (r & -> & Hr)%list_elem_of_fmap.
      rewrite sum_by_volume. fold present.
      unfold get at 1 3. rewrite lookup_insert_eq.
      by rewrite lookup_insert_ne.
  - split; [|split]; Qc_compute.
Qed.

Lemma C10_witness :
  Pd.sum "Trade volume" (rows (by_volume "Exporter" df_full))
  = Pd.sum "Trade volume" (filter (λ r, get r "Exporter" ≠ CNaN) (rows df_full)).
Proof.
  refine (proj1 (proj2 (proj1 C10_missing_keys_are_left_out "Exporter" df_full _))).
  apply (bool_decide_unpack _). vm_compute. exact I.
Defined.

(** ** C7: the first rows of every year *)

Lemma group_head_go_sublist key n seen rs :
  Pd.group_head_go key n seen rs `sublist_of` rs.
Proof.
  revert seen. induction rs as [|r rs IH]; intros seen; simpl; [done|].
  destruct (isna (get r key)); [by apply sublist_cons|].
  destruct (decide _); [by apply sublist_skip|by apply sublist_cons].
Qed.

(** A key that was already seen [m] times gets at most [n - m] more rows. *)
Lemma group_head_go_count key n seen rs y :
  (length (filter (λ r, get r key = y) (Pd.group_head_go key n seen rs))
   ≤ n - length (filter (y =.) seen))%nat.
Proof.
  revert seen. induction rs as [|r rs IH]; intros seen; simpl; [lia|].
  destruct (isna (get r key)); [apply IH|].
  specialize (IH (get r key :: seen)). rewrite filter_cons in IH.
  destruct (decide (length (filter (get r key =.) seen) < n)) as [Hlt|Hge].
  - rewrite filter_cons. destruct (decide (get r key = y)) as [<-|Hne].
    + rewrite decide_True in IH by done. simpl in *. lia.
    + rewrite decide_False in IH by done. done.
  - destruct (decide (y = get r key)); simpl in *; lia.
Qed.

Lemma groupby_head_top_n key n df :
  top_n_per_year n (Pd.groupby_head "Year" n (by_group_volume "Year" key df)).
Proof.
  intros y. unfold year_rows, Pd.groupby_head. cbn [rows]. split.
  - pose proof (group_head_go_count "Year" n []
                  (rows (by_group_volume "Year" key df)) y) as H.
    rewrite filter_nil, Nat.sub_0_r in H. exact H.
  - eapply StronglySorted_impl_in; cycle 1.
    + eapply StronglySorted_sublist; [|apply by_group_volume_sorted].
      etrans; [apply sublist_filter|apply group_head_go_sublist].
    + intros r1 r2 [E1 _]%list_elem_of_filter [E2 _]%list_elem_of_filter.
      intros [Hlt|[_ Hvol]]; [|done].
      rewrite E1, E2, (tp_refl _ cell_compare_total_preorder) in Hlt. done.
Qed.

(** C7: the top-3 importers, the top-3 destination countries and the top-1
    coffee bean per year hold at most 3, 3 and 1 rows per year, and the rows
    of one year are in descending order of the summed volume. *)
Theorem C7_top_n_per_year (df_all : DataFrame) :
  top_n_per_year 3 (top3_imp df_all) ∧
  top_n_per_year 3 (top3_countries df_all) ∧
  top_n_per_year 1 (top1_bean_year df_all).
Proof.
  unfold top3_imp, top3_countries, top1_bean_year.
  split; [|split]; apply groupby_head_top_n.
Qed.

(** ** C9: the scenario with two year sheets *)

Lemma csv_table_app_other path fs out :
  path ∉ csv_paths out → csv_table path (fs ++ out) = csv_table path fs.
Proof.
  unfold csv_table. rewrite foldl_app. generalize (foldl
    (λ found f, match f with
                | Csv p t => if decide (p = path) then Some t else found
                | Png _ => found
                end) None fs).
  induction out as [|[p t|p] out IH]; intros found Hnot; simpl in *.
  - done.
  - rewrite not_elem_of_cons in Hnot. destruct Hnot as [Hne Hnot].
    rewrite decide_False by done. by apply IH.
  - by apply IH.
Qed.

Lemma save_table_run df name fs :
  save_table df name fs
  = (fs ++ [Csv (out_path (name +:+ ".csv")) df],
     inr (out_path (name +:+ ".csv"))).
Proof. done. Qed.

Lemma report_A_run df fs :
  report_A df fs
  = ((fs ++ [Csv "outputs/summary_trade_volume_by_year.csv" (per_year df)])
       ++ [Png "outputs/A_trade_volume_by_year.png"], inr ()).
Proof. done. Qed.

(** The by-year table is in the file of its name when the run is over. *)
Lemma reports_by_year df :
  csv_table "outputs/summary_trade_volume_by_year.csv" (reports df []).1
  = Some (per_year df).
Proof.
  unfold reports.
  rewrite bind_run, save_table_run. cbv beta iota.
  rewrite bind_run, report_A_run. cbv beta iota.
  match goal with
  | |- context [?m ?fs] =>
      destruct (later_reports_writes df fs) as [(out & -> & Hout) _]
  end.
  rewrite csv_table_app_other; [done|].
  rewrite Hout. unfold expected_csvs.
  destruct (has_column "Country of destination" df),
    (has_column "Exporter" df), (has_column "Importer" df),
    (has_column "Coffee bean" df), (has_column "Municipality of export" df);
    apply (bool_decide_unpack _); vm_compute; exact I.
Qed.

(** Grouping looks at the key columns and the measure only. *)
Lemma groupby_sum_rows_ext keys measure df1 df2 :
  (λ r, (Pd.key_of keys r, get r measure)) <$> rows df1
  = (λ r, (Pd.key_of keys r, get r measure)) <$> rows df2 →
  rows (Pd.groupby_sum keys measure df1)
  = rows (Pd.groupby_sum keys measure df2).
Proof.
  cbn [Pd.groupby_sum rows]. generalize (rows df1) (rows df2).
  intros rs1 rs2 Hproj.
  assert (Pd.group_keys keys rs1 = Pd.group_keys keys rs2) as ->.
  { unfold Pd.group_keys. do 2 f_equal.
    revert rs2 Hproj. induction rs1 as [|r1 rs1 IH]; intros [|r2 rs2] Hproj;
      try done.
    rewrite !fmap_cons in Hproj. injection Hproj as Hk Hv Hrest.
    rewrite !filter_cons, !notna_on_key_of, Hk.
    destruct (decide _); [|by apply IH].
    rewrite !fmap_cons, Hk. f_equal. by apply IH. }
  apply list_fmap_ext. intros _ k _. unfold Pd.group_row. do 2 f_equal.
  unfold Pd.group_rows.
  revert rs2 Hproj. induction rs1 as [|r1 rs1 IH]; intros [|r2 rs2] Hproj;
    try done.
  rewrite !fmap_cons in Hproj. injection Hproj as Hk Hv Hrest.
  rewrite !filter_cons, Hk.
  destruct (decide _); [|by apply IH].
  rewrite !sum_cons, Hv. f_equal. by apply IH.
Qed.

Lemma elem_of_columns_concat c f frames :
  f ∈ frames → c ∈ columns f → c ∈ columns (Pd.concat frames).
Proof.
  intros Hf Hc. unfold Pd.concat; cbn [columns].
  assert (∀ acc, c ∈ acc ∨ (∃ f, f ∈ frames ∧ c ∈ columns f) →
            c ∈ foldl (λ acc df, acc ++ list_difference (columns df) acc)
                  acc frames) as H.
  { clear f Hf Hc. induction frames as [|f frames IH]; intros acc Hacc.
    - destruct Hacc as [?|(f & []%elem_of_nil & _)]. done.
    - cbn [foldl]. apply IH.
      destruct (decide (c ∈ acc)) as [?|Hnot].
      { left. apply elem_of_app. by left. }
      destruct Hacc as [?|(f' & [->|Hf']%elem_of_cons & Hc)]; [done| |].
      + left. apply elem_of_app. right. by apply list_elem_of_difference.
      + right. by exists f'. }
  apply H. right. by exists f.
Qed.

Lemma header_of_value sheet line c :
  get (list_to_map (zip (header sheet) line)) c ≠ CNaN → c ∈ header sheet.
Proof.
  unfold get. destruct (list_to_map _ !! c) as [v|] eqn:E; [|done].
  intros _. apply elem_of_list_to_map_2 in E. by apply elem_of_zip_l in E.
Qed.

Lemma get_normalize_row_other parse present r c :
  c ≠ "Trade volume" → c ≠ "Trade value" → c ≠ "Trade volume (t)" →
  get (normalize_row parse present r) c = get r c.
Proof.
  intros H1 H2 H3. unfold normalize_row, coerce_row, get; simpl.
  rewrite lookup_insert_ne by done.
  destruct (decide ("Trade volume" ∈ present)),
    (decide ("Trade value" ∈ present));
    by rewrite ?lookup_insert_ne by done.
Qed.

(** When every volume is a number, the Normalizer keeps every row, with its
    year and its volume. *)
Lemma normalize_numeric parse df df' :
  normalize parse df = inr df' →
  Forall (λ r, ∃ v, get r "Trade volume" = CNum v) (rows df) →
  (λ r, (Pd.key_of ["Year"] r, get r "Trade volume")) <$> rows df'
  = (λ r, (Pd.key_of ["Year"] r, get r "Trade volume")) <$> rows df.
Proof.
  rewrite normalize_eq.
  destruct (decide ("Trade volume" ∈ columns df)) as [Hin|]; [|done].
  intros [= <-]. cbn [rows]. generalize (columns df) Hin. intros C HC.
  induction 1 as [|r rs [v Hv] _ IH]; [done|].
  rewrite fmap_cons, filter_cons_True.
  - rewrite !fmap_cons, IH. f_equal. unfold Pd.key_of. simpl.
    rewrite get_normalize_row_other by done.
    by rewrite get_normalize_row_volume, Hv.
  - apply notna_on_volume. by rewrite get_normalize_row_volume, Hv.
Qed.

Lemma proj_year_frame sheet :
  (λ r, (Pd.key_of ["Year"] r, get r "Trade volume")) <$> rows (year_frame sheet)
  = (λ v, ([CStr (year_label (sheet_name sheet))], v))
      <$> Pd.tolist "Trade volume" (read_excel sheet).
Proof.
  unfold year_frame, Pd.setitem, Pd.tolist. cbn [rows].
  rewrite <-!list_fmap_compose. apply list_fmap_ext. intros _ r _. simpl.
  unfold Pd.key_of, get. simpl.
  by rewrite lookup_insert_eq, lookup_insert_ne.
Qed.

Lemma volume_in_header sheet v vs :
  Pd.tolist "Trade volume" (read_excel sheet) = CNum v :: vs →
  "Trade volume" ∈ columns (year_frame sheet).
Proof.
  unfold Pd.tolist, read_excel. cbn [rows]. rewrite <-list_fmap_compose.
  destruct (body sheet) as [|line lines]; [done|].
  rewrite fmap_cons. intros [= Hv _]. simpl in Hv.
  assert ("Trade volume" ∈ header sheet) as Hin
    by (apply (header_of_value sheet line); by rewrite Hv).
  unfold year_frame, Pd.setitem. cbn [columns].
  destruct (decide _); [done|]. apply elem_of_app. by left.
Qed.

Lemma by_year_of_projection parse df l :
  "Trade volume" ∈ columns df →
  Forall (λ p, ∃ v, p.2 = CNum v) l →
  (λ r, (Pd.key_of ["Year"] r, get r "Trade volume")) <$> rows df = l →
  (λ r, (Pd.key_of ["Year"] r, get r "Trade volume"))
    <$> rows (skeleton ["Year"] "Trade volume" l) = l →
  ∃ df', normalize parse df = inr df' ∧
         per_year df' = per_year (skeleton ["Year"] "Trade volume" l).
Proof.
  intros Hin Hnum Hl Hskel.
  destruct (normalize parse df) as [e|df'] eqn:Hnorm.
  { rewrite normalize_eq, decide_True in Hnorm by done. done. }
  exists df'. split; [done|].
  unfold per_year, Pd.sort_values. cbn [columns Pd.groupby_sum]. f_equal.
  f_equal. apply groupby_sum_rows_ext.
  rewrite Hskel, (normalize_numeric parse df df' Hnorm); [done|].
  rewrite <-Hl in Hnum. rewrite Forall_fmap in Hnum.
  eapply Forall_impl; [exact Hnum|]. intros r [v Hv]. by exists v.
Qed.

(** C9: when the year sheets of the workbook are "Year 2020" with the
    volumes 100 and 200 and "Year 2021" with the volume 300, in either order
    and whatever their other columns, the unified table has 3 rows and the
    by-year summary written has two rows, 300 for "2020" and 300 for "2021". *)
Theorem C9_two_year_scenario
    (parse : string → option Qc) (wb : list Sheet) (s1 s2 : Sheet) :
  year_sheets wb ≡ₚ [s1; s2] →
  sheet_name s1 = "Year 2020" → sheet_name s2 = "Year 2021" →
  Pd.tolist "Trade volume" (read_excel s1) = [int 100; int 200] →
  Pd.tolist "Trade volume" (read_excel s2) = [int 300] →
  (∃ df, read_year_sheets wb = inr df ∧ length (rows df) = 3) ∧
  ∃ r2020 r2021,
    csv_table "outputs/summary_trade_volume_by_year.csv" (main parse wb []).1
    = Some {| columns := ["Year"; "Trade volume"]; rows := [r2020; r2021] |} ∧
    get r2020 "Year" = CStr "2020" ∧ get r2020 "Trade volume" = int 300 ∧
    get r2021 "Year" = CStr "2021" ∧ get r2021 "Trade volume" = int 300.
Proof.
  intros Hperm Hn1 Hn2 Hv1 Hv2.
  pose proof (volume_in_header s1 _ _ Hv1) as Hin1.
  assert (length (body s1) = 2 ∧ length (body s2) = 1) as [Hb1 Hb2].
  { apply (f_equal length) in Hv1, Hv2. unfold Pd.tolist, read_excel in *.
    cbn [rows] in *. by rewrite !length_fmap in Hv1, Hv2. }
  pose proof (proj_year_frame s1) as Hp1.
  pose proof (proj_year_frame s2) as Hp2.
  rewrite Hn1, Hv1 in Hp1. rewrite Hn2, Hv2 in Hp2.
  symmetry in Hperm. apply Permutation_length_2_inv in Hperm as [Hys|Hys].
  - assert (read_year_sheets wb
            = inr (Pd.concat [year_frame s1; year_frame s2])) as Hread
      by (unfold read_year_sheets; by rewrite Hys).
    split.
    { eexists. split; [exact Hread|].
      etrans; [apply (rows_concat_year_lengths [s1; s2])|]. simpl. lia. }
    destruct (by_year_of_projection parse
                (Pd.concat [year_frame s1; year_frame s2])
                [([CStr "2020"], int 100); ([CStr "2020"], int 200);
                 ([CStr "2021"], int 300)])
      as (df' & Hnorm & Hper).
    + eapply elem_of_columns_concat; [|exact Hin1]. set_solver.
    + repeat constructor; by eexists.
    + unfold Pd.concat; cbn [rows mbind list_bind].
      by rewrite app_nil_r, fmap_app, Hp1, Hp2.
    + reflexivity.
    + rewrite main_unfold, Hread, Hnorm, reports_by_year, Hper.
      eexists _, _. split; [vm_compute; reflexivity|].
      split; [vm_compute; reflexivity|]. split; [cell_compute|].
      split; [vm_compute; reflexivity|]. cell_compute.
  - assert (read_year_sheets wb
            = inr (Pd.concat [year_frame s2; year_frame s1])) as Hread
      by (unfold read_year_sheets; by rewrite Hys).
    split.
    { eexists. split; [exact Hread|].
      etrans; [apply (rows_concat_year_lengths [s2; s1])|]. simpl. lia. }
    destruct (by_year_of_projection parse
                (Pd.concat [year_frame s2; year_frame s1])
                [([CStr "2021"], int 300); ([CStr "2020"], int 100);
                 ([CStr "2020"], int 200)])
      as (df' & Hnorm & Hper).
    + eapply elem_of_columns_concat; [|exact Hin1]. set_solver.
    + repeat constructor; by eexists.
    + unfold Pd.concat; cbn [rows mbind list_bind].
      by rewrite app_nil_r, fmap_app, Hp1, Hp2.
    + reflexivity.
    + rewrite main_unfold, Hread, Hnorm, reports_by_year, Hper.
      eexists _, _. split; [vm_compute; reflexivity|].
      split; [vm_compute; reflexivity|]. split; [cell_compute|].
      split; [vm_compute; reflexivity|]. cell_compute.
Qed.

Lemma C9_witness :
  ∃ r2020 r2021,
    csv_table "outputs/summary_trade_volume_by_year.csv"
      (main parse_digits wb_scenario []).1
    = Some {| columns := ["Year"; "Trade volume"]; rows := [r2020; r2021] |} ∧
    get r2020 "Year" = CStr "2020" ∧ get r2020 "Trade volume" = int 300 ∧
    get r2021 "Year" = CStr "2021" ∧ get r2021 "Trade volume" = int 300.
Proof.
  refine (proj2 (C9_two_year_scenario parse_digits wb_scenario
                   sheet_2020 sheet_2021 _ _ _ _ _)); reflexivity.
Defined.

(** * Further properties of the script *)

(** ** [coerce_numeric] *)

Section Coercion.
Context (parse : string → option Qc).

Lemma to_numeric_idemp c :
  to_numeric parse (to_numeric parse c) = to_numeric parse c.
Proof. destruct c as [s|q|]; simpl; [by destruct (parse s)|done..]. Qed.

Lemma to_numeric_is_numeric c : is_numeric (to_numeric parse c).
Proof. destruct c as [s|q|]; simpl; [by destruct (parse s)|done..]. Qed.

Lemma to_numeric_of_numeric c : is_numeric c → to_numeric parse c = c.
Proof. by destruct c. Qed.

(** One row after [coerce_numeric], entry by entry. *)
Lemma lookup_coerce_row present cols r c :
  coerce_row parse present cols r !! c
  = if decide (c ∈ cols ∧ c ∈ present)
    then Some (to_numeric parse (get r c))
    else r !! c.
Proof.
  revert r. induction cols as [|c' cols IH]; intros r.
  { rewrite decide_False; [done|]. by intros [?%elem_of_nil _]. }
  unfold coerce_row in *. cbn [foldl]. rewrite IH. clear IH.
  assert (c ≠ c' ∨ c' ∉ present →
          (c ∈ cols ∧ c ∈ present) ↔ (c ∈ c' :: cols ∧ c ∈ present)) as Hiff.
  { rewrite elem_of_cons. intros [?|?]; split; try tauto.
    intros [[->|?] ?]; tauto. }
  destruct (decide (c' ∈ present)) as [Hc'|Hc'].
  - destruct (decide (c = c')) as [->|Hne].
    + rewrite (decide_True (P := c' ∈ c' :: cols ∧ c' ∈ present))
        by (split; [left|done]).
      destruct (decide (c' ∈ cols ∧ c' ∈ present)).
      * unfold get at 1. rewrite lookup_insert_eq. simpl.
        by rewrite to_numeric_idemp.
      * by rewrite lookup_insert_eq.
    + unfold get at 1. rewrite !lookup_insert_ne by done.
      apply decide_ext, Hiff. by left.
  - apply decide_ext, Hiff. by right.
Qed.

Lemma get_coerce_row present cols r c :
  get (coerce_row parse present cols r) c
  = if decide (c ∈ cols ∧ c ∈ present)
    then to_numeric parse (get r c)
    else get r c.
Proof. unfold get at 1. rewrite lookup_coerce_row. by destruct (decide _). Qed.

Lemma coerce_row_idemp present cols r :
  coerce_row parse present cols (coerce_row parse present cols r)
  = coerce_row parse present cols r.
Proof.
  apply map_eq. intros c. rewrite !lookup_coerce_row, get_coerce_row.
  destruct (decide _); [|done]. by rewrite to_numeric_idemp.
Qed.
End Coercion.

(** X1: [coerce_numeric] keeps the columns and the number of rows.  A listed
    column that the frame has is converted cell by cell; a listed column that
    the frame does not have is not created; every other column keeps its
    cells. *)
Theorem coerce_numeric_columnwise
    (parse : string → option Qc) (df : DataFrame) (cols : list string) :
  let df' := coerce_numeric parse df cols in
  columns df' = columns df ∧
  length (rows df') = length (rows df) ∧
  ∀ c, Pd.tolist c df'
       = if decide (c ∈ cols ∧ c ∈ columns df)
         then to_numeric parse <$> Pd.tolist c df
         else Pd.tolist c df.
Proof.
  intros df'. subst df'. rewrite coerce_numeric_eq. cbn [columns rows].
  split; [done|]. split; [by rewrite length_fmap|].
  intros c. unfold Pd.tolist. cbn [rows]. rewrite <-list_fmap_compose.
  destruct (decide _) as [Hc|Hc].
  - rewrite <-list_fmap_compose. apply list_fmap_ext. intros _ r _. simpl.
    by rewrite get_coerce_row, decide_True.
  - apply list_fmap_ext. intros _ r _. simpl.
    by rewrite get_coerce_row, decide_False.
Qed.

(** X2: coercing twice is coercing once, and after the coercion no listed
    column of the frame holds a string. *)
Theorem coerce_numeric_idempotent
    (parse : string → option Qc) (df : DataFrame) (cols : list string) :
  coerce_numeric parse (coerce_numeric parse df cols) cols
  = coerce_numeric parse df cols ∧
  ∀ c r, c ∈ cols → c ∈ columns df →
         r ∈ rows (coerce_numeric parse df cols) → is_numeric (get r c).
Proof.
  split.
  - rewrite !coerce_numeric_eq. cbn [columns rows]. f_equal.
    rewrite <-list_fmap_compose. apply list_fmap_ext. intros _ r _. simpl.
    apply coerce_row_idemp.
  - intros c r Hc Hin. rewrite coerce_numeric_eq. cbn [rows].
    intros (r0 & -> & _)%list_elem_of_fmap.
    rewrite get_coerce_row, decide_True by done.
    apply to_numeric_is_numeric.
Qed.

Lemma coerce_numeric_idempotent_witness :
  is_numeric
    (get (coerce_row parse_digits ["Trade volume"] ["Trade volume"]
            {["Trade volume" := CStr "n/a"]}) "Trade volume").
Proof.
  refine (proj2 (coerce_numeric_idempotent parse_digits
                   {| columns := ["Trade volume"];
                      rows := [{["Trade volume" := CStr "n/a"]}] |}
                   ["Trade volume"]) "Trade volume" _ _ _ _).
  - apply (bool_decide_unpack _). vm_compute. exact I.
  - apply (bool_decide_unpack _). vm_compute. exact I.
  - vm_compute. left.
Defined.

(** ** The Normalizer as a whole *)

Lemma filter_fmap_comm {A B} (f : A → B) (P : B → Prop)
    `{!∀ y, Decision (P y)} (l : list A) :
  filter P (f <$> l) = f <$> filter (λ x, P (f x)) l.
Proof.
  induction l as [|x l IH]; [done|].
  rewrite fmap_cons, !filter_cons, IH. by destruct (decide (P (f x))).
Qed.

Section NormalizerFacts.
Context (parse : string → option Qc).

Lemma lookup_normalize_row present r c :
  normalize_row parse present r !! c
  = if decide (c = "Trade volume (t)")
    then Some (Pd.div_by (Qc_of_Z 1000)
                 (get (coerce_row parse present
                         ["Trade volume"; "Trade value"] r) "Trade volume"))
    else coerce_row parse present ["Trade volume"; "Trade value"] r !! c.
Proof.
  unfold normalize_row. destruct (decide _) as [->|Hne].
  - by rewrite lookup_insert_eq.
  - by rewrite lookup_insert_ne.
Qed.

Lemma normalize_columns df df' :
  normalize parse df = inr df' →
  "Trade volume" ∈ columns df ∧
  columns df' = if decide ("Trade volume (t)" ∈ columns df)
                then columns df
                else columns df ++ ["Trade volume (t)"].
Proof.
  rewrite normalize_eq. destruct (decide ("Trade volume" ∈ columns df)); [|done].
  by intros [= <-].
Qed.

Lemma normalize_rows_eq df df' :
  normalize parse df = inr df' →
  rows df'
  = normalize_row parse (columns df)
      <$> filter (λ r, to_numeric parse (get r "Trade volume") ≠ CNaN) (rows df).
Proof.
  rewrite normalize_eq.
  destruct (decide ("Trade volume" ∈ columns df)) as [Hin|]; [|done].
  intros [= <-]. cbn [rows]. rewrite filter_fmap_comm. f_equal.
  apply filter_ext_in. intros r _.
  etrans; [apply notna_on_volume|]. by rewrite get_normalize_row_volume.
Qed.

(** A row that went through the Normalizer goes through it unchanged. *)
Lemma normalize_row_again present present' r :
  "Trade volume" ∈ present → "Trade volume" ∈ present' →
  ("Trade value" ∈ present' → "Trade value" ∈ present) →
  normalize_row parse present' (normalize_row parse present r)
  = normalize_row parse present r.
Proof.
  intros Hv Hv' Hval. apply map_eq. intros c.
  rewrite (lookup_normalize_row present').
  assert (∀ c', c' ≠ "Trade volume (t)" →
            get (normalize_row parse present r) c'
            = get (coerce_row parse present
                     ["Trade volume"; "Trade value"] r) c') as Hget.
  { intros c' Hc'. unfold get. by rewrite lookup_normalize_row, decide_False. }
  destruct (decide (c = "Trade volume (t)")) as [->|Hne].
  - rewrite lookup_normalize_row, decide_True by done. do 2 f_equal.
    rewrite get_coerce_row, decide_True by (split; [set_solver|done]).
    rewrite Hget by done.
    rewrite get_coerce_row, decide_True by (split; [set_solver|done]).
    apply to_numeric_idemp.
  - rewrite lookup_coerce_row.
    rewrite (lookup_normalize_row present r c).
    rewrite (decide_False (P := c = "Trade volume (t)")) by done.
    destruct (decide (c ∈ ["Trade volume"; "Trade value"] ∧ c ∈ present'))
      as [[Hc Hc']|Hc]; [|done].
    assert (c ∈ present) as Hp.
    { apply elem_of_cons in Hc as [->|Hc]; [done|].
      apply list_elem_of_singleton in Hc as ->. auto. }
    rewrite Hget by done.
    rewrite get_coerce_row, lookup_coerce_row, !decide_True by done.
    by rewrite to_numeric_idemp.
Qed.
End NormalizerFacts.

(** X3: the Normalizer column by column.  It keeps, in their order, the rows
    whose volume is a number or parses as one; in these rows the volume is
    the parsed number, the tons are the volume divided by 1000, the trade
    value is converted when the frame has that column, and every other column
    keeps its cells.  A missing trade value drops no row. *)
Theorem normalize_columnwise
    (parse : string → option Qc) (df df' : DataFrame) :
  normalize parse df = inr df' →
  let kept :=
    {| columns := columns df;
       rows := filter (λ r, to_numeric parse (get r "Trade volume") ≠ CNaN)
                 (rows df) |} in
  length (rows df') = length (rows kept) ∧
  Pd.tolist "Trade volume" df'
    = to_numeric parse <$> Pd.tolist "Trade volume" kept ∧
  Pd.tolist "Trade volume (t)" df'
    = Pd.div_by (Qc_of_Z 1000) <$> Pd.tolist "Trade volume" df' ∧
  Pd.tolist "Trade value" df'
    = (if decide ("Trade value" ∈ columns df)
       then to_numeric parse <$> Pd.tolist "Trade value" kept
       else Pd.tolist "Trade value" kept) ∧
  ∀ c, c ≠ "Trade volume" → c ≠ "Trade value" → c ≠ "Trade volume (t)" →
       Pd.tolist c df' = Pd.tolist c kept.
Proof.
  intros Hnorm kept.
  destruct (normalize_columns parse df df' Hnorm) as [Hin _].
  pose proof (normalize_rows_eq parse df df' Hnorm) as Hrows.
  unfold Pd.tolist. rewrite Hrows. subst kept. cbn [rows].
  rewrite !length_fmap, <-!list_fmap_compose.
  split; [done|]. split; [|split; [|split]].
  - apply list_fmap_ext. intros _ r _. simpl.
    by apply get_normalize_row_volume.
  - apply list_fmap_ext. intros _ r _. simpl. apply get_normalize_row_tons.
  - destruct (decide _) as [Hval|Hval];
      apply list_fmap_ext; intros _ r _; simpl; unfold get at 1;
      rewrite lookup_normalize_row, decide_False, lookup_coerce_row by done.
    + by rewrite decide_True by (split; [set_solver|done]).
    + by rewrite decide_False by tauto.
  - intros c H1 H2 H3. rewrite <-list_fmap_compose.
    apply list_fmap_ext. intros _ r _. simpl.
    by apply get_normalize_row_other.
Qed.

Lemma normalize_columnwise_witness :
  Pd.tolist "Trade volume" df_full = [int 10; int 20; int 30].
Proof.
  etrans.
  - refine (proj1 (proj2 (normalize_columnwise parse_digits
                            (Pd.concat [year_frame sheet_full]) df_full _))).
    reflexivity.
  - vm_compute. repeat (f_equal; try (apply (f_equal CNum); Qc_compute)).
Defined.

(** X4: the Normalizer changes nothing in its own output. *)
Theorem normalize_idempotent
    (parse : string → option Qc) (df df' : DataFrame) :
  normalize parse df = inr df' → normalize parse df' = inr df'.
Proof.
  intros Hnorm.
  destruct (normalize_columns parse df df' Hnorm) as [Hin Hcols].
  pose proof (normalize_rows_eq parse df df' Hnorm) as Hrows.
  assert ("Trade volume" ∈ columns df' ∧ "Trade volume (t)" ∈ columns df'
          ∧ ("Trade value" ∈ columns df' → "Trade value" ∈ columns df))
    as (Hin' & Ht' & Hval).
  { rewrite Hcols. destruct (decide ("Trade volume (t)" ∈ columns df)).
    - done.
    - rewrite !elem_of_app, !list_elem_of_singleton.
      split; [by left|]. split; [by right|]. by intros [?|?]. }
  rewrite normalize_eq, !decide_True by done.
  destruct df' as [cs rs]. cbn [columns rows] in *. do 2 f_equal.
  rewrite Hrows. clear Hrows.
  assert (Forall (λ r, to_numeric parse (get r "Trade volume") ≠ CNaN)
            (filter (λ r, to_numeric parse (get r "Trade volume") ≠ CNaN)
               (rows df))) as Hkept.
  { apply Forall_forall. by intros r [? _]%list_elem_of_filter. }
  induction Hkept as [|r l Hr _ IH]; [done|].
  rewrite !fmap_cons, filter_cons_True.
  - by rewrite normalize_row_again, IH.
  - rewrite normalize_row_again by done.
    apply notna_on_volume. by rewrite get_normalize_row_volume.
Qed.

Lemma normalize_idempotent_witness :
  normalize parse_digits df_full = inr df_full.
Proof.
  apply (normalize_idempotent parse_digits
           (Pd.concat [year_frame sheet_full])).
  reflexivity.
Defined.

(** ** The Loader: columns of the unified table, sheets left aside *)

Lemma elem_of_columns_concat_iff c frames :
  c ∈ columns (Pd.concat frames) ↔ ∃ f, f ∈ frames ∧ c ∈ columns f.
Proof.
  split; [|intros (f & ? & ?); by eapply elem_of_columns_concat].
  rewrite columns_concat.
  assert (∀ acc, c ∈ foldl (λ acc cs, acc ++ list_difference cs acc) acc
                       (columns <$> frames) →
                 c ∈ acc ∨ ∃ f, f ∈ frames ∧ c ∈ columns f) as H.
  { induction frames as [|f frames IH]; intros acc; [by left|].
    rewrite fmap_cons. cbn [foldl]. intros [Hc|(f' & ? & ?)]%IH.
    - apply elem_of_app in Hc as [?|[? _]%list_elem_of_difference];
        [by left|]. right. exists f. split; [left|done].
    - right. exists f'. split; [by right|done]. }
  intros [[]%elem_of_nil|?]%H. done.
Qed.

Lemma NoDup_columns_concat frames :
  Forall (λ f, NoDup (columns f)) frames → NoDup (columns (Pd.concat frames)).
Proof.
  rewrite columns_concat.
  assert (∀ acc, NoDup acc → Forall (λ f, NoDup (columns f)) frames →
                 NoDup (foldl (λ acc cs, acc ++ list_difference cs acc) acc
                          (columns <$> frames))) as H.
  { induction frames as [|f frames IH]; intros acc Hacc Hf; [done|].
    apply Forall_cons in Hf as [Hf Hfs]. rewrite fmap_cons. cbn [foldl].
    apply IH; [|done]. apply NoDup_app. split; [done|]. split.
    - intros c Hc [_ ?]%list_elem_of_difference. done.
    - by apply NoDup_list_difference. }
  apply H. constructor.
Qed.

Lemma elem_of_columns_year_frame c sheet :
  c ∈ columns (year_frame sheet) ↔ c = "Year" ∨ c ∈ header sheet.
Proof.
  unfold year_frame, Pd.setitem, read_excel. cbn [columns].
  destruct (decide ("Year" ∈ header sheet)) as [Hy|Hy].
  - split; [by right|]. by intros [->|?].
  - rewrite elem_of_app, list_elem_of_singleton. tauto.
Qed.

Lemma NoDup_columns_year_frame sheet :
  NoDup (header sheet) → NoDup (columns (year_frame sheet)).
Proof.
  intros Hnd. unfold year_frame, Pd.setitem, read_excel. cbn [columns].
  destruct (decide ("Year" ∈ header sheet)) as [Hy|Hy]; [done|].
  apply NoDup_app. split; [done|]. split; [|apply NoDup_singleton].
  by intros c Hc ->%list_elem_of_singleton.
Qed.

(** A row of a year frame holds cells in the columns of its sheet only. *)
Lemma get_year_frame_outside sheet r c :
  r ∈ rows (year_frame sheet) → c ≠ "Year" → c ∉ header sheet →
  get r c = CNaN.
Proof.
  unfold year_frame, Pd.setitem, read_excel. cbn [rows].
  rewrite <-list_fmap_compose. intros (line & -> & _)%list_elem_of_fmap.
  intros Hne Hc. simpl. unfold get. rewrite lookup_insert_ne by done.
  destruct (list_to_map _ !! c) as [v|] eqn:E; [|done].
  apply elem_of_list_to_map_2, elem_of_zip_l in E. done.
Qed.

Lemma elem_of_rows_year_frames (l : list Sheet) r :
  r ∈ rows (Pd.concat (year_frame <$> l)) ↔
  ∃ s, s ∈ l ∧ r ∈ rows (year_frame s).
Proof.
  rewrite rows_concat_year_frames, list_elem_of_bind.
  split; intros (s & ? & ?); by exists s.
Qed.

(** X5: the columns of the unified table are those of the year sheets and
    "Year", each once when no sheet repeats a header; a row reads as NaN in
    every column that its own sheet does not have. *)
Theorem read_year_sheets_columns (wb : list Sheet) (df : DataFrame) :
  read_year_sheets wb = inr df →
  (∀ c, c ∈ columns df ↔
        c = "Year" ∨ ∃ s, s ∈ year_sheets wb ∧ c ∈ header s) ∧
  (Forall (λ s, NoDup (header s)) (year_sheets wb) → NoDup (columns df)) ∧
  (∀ r, r ∈ rows df →
     ∃ s, s ∈ year_sheets wb ∧
          get r "Year" = CStr (year_label (sheet_name s)) ∧
          ∀ c, c ≠ "Year" → c ∉ header s → get r c = CNaN).
Proof.
  intros [Hne ->]%read_year_sheets_inr. split; [|split].
  - intros c. rewrite elem_of_columns_concat_iff. split.
    + intros (f & (s & -> & Hs)%list_elem_of_fmap
                & [->|Hc]%elem_of_columns_year_frame); [by left|].
      right. by exists s.
    + intros [->|(s & Hs & Hc)].
      * destruct (year_sheets wb) as [|s l] eqn:E; [done|].
        exists (year_frame s). split; [rewrite fmap_cons; left|].
        apply elem_of_columns_year_frame. by left.
      * exists (year_frame s). split; [by apply list_elem_of_fmap_2|].
        apply elem_of_columns_year_frame. by right.
  - intros Hnd. apply NoDup_columns_concat, Forall_fmap.
    eapply Forall_impl; [exact Hnd|]. intros s. apply NoDup_columns_year_frame.
  - intros r (s & Hs & Hr)%elem_of_rows_year_frames. exists s.
    split; [done|]. split; [by apply get_year_frame|].
    intros c. by apply get_year_frame_outside.
Qed.

Lemma read_year_sheets_columns_witness :
  NoDup (columns (Pd.concat (year_frame <$> [sheet_2020; sheet_2021]))).
Proof.
  refine (proj1 (proj2 (read_year_sheets_columns wb_scenario _ eq_refl)) _).
  vm_compute. repeat constructor; set_solver.
Defined.

Lemma year_sheets_insert_other wb1 sheet wb2 :
  is_year_sheet (sheet_name sheet) = false →
  year_sheets (wb1 ++ sheet :: wb2) = year_sheets (wb1 ++ wb2).
Proof.
  intros Hs. unfold year_sheets. rewrite !filter_app, filter_cons_False; [done|].
  by rewrite Hs.
Qed.

(** X6: a sheet whose name does not start with "year" never influences the
    run: with or without it, [main] writes the same files and ends the same
    way. *)
Theorem main_ignores_other_sheets
    (parse : string → option Qc) (wb1 wb2 : list Sheet) (sheet : Sheet)
    (fs : list file) :
  is_year_sheet (sheet_name sheet) = false →
  main parse (wb1 ++ sheet :: wb2) fs = main parse (wb1 ++ wb2) fs.
Proof.
  intros Hs. rewrite !main_unfold. unfold read_year_sheets.
  by rewrite (year_sheets_insert_other _ _ _ Hs).
Qed.

Lemma main_ignores_other_sheets_witness :
  main parse_digits ([sheet_2020] ++ sheet_notes :: [sheet_2021]) []
  = main parse_digits ([sheet_2020] ++ [sheet_2021]) [].
Proof. apply main_ignores_other_sheets. reflexivity. Defined.

(** ** The by-year summary accounts for every row *)

Lemma filter_all {A} (P : A → Prop) `{!∀ x, Decision (P x)} (l : list A) :
  Forall P l → filter P l = l.
Proof.
  induction 1 as [|x l Hx _ IH]; [done|].
  by rewrite filter_cons_True, IH.
Qed.

Lemma load_inr parse wb df' :
  load parse wb = inr df' ↔
  ∃ df, read_year_sheets wb = inr df ∧ normalize parse df = inr df'.
Proof.
  unfold load. destruct (read_year_sheets wb) as [e|df].
  - split; [done|]. by intros (? & ? & _).
  - split; [by exists df|]. by intros (? & [= <-] & ?).
Qed.

(** Every row that reaches the reports carries the label of a year sheet. *)
Lemma load_rows_year parse wb df' r :
  load parse wb = inr df' → r ∈ rows df' →
  ∃ s, s ∈ year_sheets wb ∧ get r "Year" = CStr (year_label (sheet_name s)).
Proof.
  intros (df & [_ ->]%read_year_sheets_inr & Hnorm)%load_inr Hr.
  rewrite (normalize_rows_eq parse _ _ Hnorm) in Hr.
  apply list_elem_of_fmap in Hr as (r0 & -> & [_ Hr0]%list_elem_of_filter).
  apply elem_of_rows_year_frames in Hr0 as (s & Hs & Hr0).
  exists s. split; [done|].
  rewrite get_normalize_row_other by done. by apply get_year_frame.
Qed.

(** X7: in exact arithmetic the volumes of the by-year summary add up to the
    volume of the whole normalised table, no row is left out of it; and every
    year of the summary is the label of a year sheet. *)
Theorem per_year_accounts_for_all
    (parse : string → option Qc) (wb : list Sheet) (df_all : DataFrame) :
  load parse wb = inr df_all →
  Pd.sum "Trade volume" (rows (per_year df_all))
    = Pd.sum "Trade volume" (rows df_all) ∧
  ∀ r, r ∈ rows (per_year df_all) →
    ∃ s, s ∈ year_sheets wb ∧ get r "Year" = CStr (year_label (sheet_name s)).
Proof.
  intros Hload. split.
  - unfold per_year. rewrite (sum_perm _ _ _ (sort_values_perm _ _)).
    rewrite sum_groupby_sum. f_equal. apply filter_all, Forall_forall.
    intros r Hr. apply notna_on_singleton.
    destruct (load_rows_year parse wb df_all r Hload Hr) as (s & _ & ->).
    done.
  - intros r Hr. unfold per_year in Hr. rewrite sort_values_perm in Hr.
    destruct (groupby_sum_spec ["Year"] "Trade volume" df_all)
      as [_ Hspec]; [apply NoDup_singleton|by intros ?%list_elem_of_singleton|].
    destruct (Hspec r Hr) as (_ & (r' & Hr' & Hkey) & _).
    destruct (load_rows_year parse wb df_all r' Hload Hr') as (s & Hs & Hy).
    exists s. split; [done|]. unfold Pd.key_of in Hkey. simpl in Hkey.
    by injection Hkey as <-.
Qed.

Lemma per_year_accounts_for_all_witness :
  Pd.sum "Trade volume" (rows (per_year df_full))
  = Pd.sum "Trade volume" (rows df_full).
Proof.
  refine (proj1 (per_year_accounts_for_all parse_digits [sheet_full]
                   df_full _)).
  reflexivity.
Defined.

(** ** The first rows of every year, once more *)

(** Of the rows with key [y], [groupby(key).head(n)] keeps the first ones, as
    many as [n] allows after those already seen. *)
Lemma group_head_go_filter key n seen rs y :
  y ≠ CNaN →
  filter (λ r, get r key = y) (Pd.group_head_go key n seen rs)
  = take (n - length (filter (y =.) seen))
      (filter (λ r, get r key = y) rs).
Proof.
  intros Hy. revert seen. induction rs as [|r rs IH]; intros seen.
  { cbn [Pd.group_head_go]. by rewrite !filter_nil, take_nil. }
  cbn [Pd.group_head_go]. rewrite (filter_cons _ r rs).
  destruct (isna (get r key)) eqn:Hna.
  { rewrite decide_False; [apply IH|].
    intros E. rewrite E in Hna. by destruct y. }
  specialize (IH (get r key :: seen)). rewrite (filter_cons _ _ seen) in IH.
  destruct (decide (get r key = y)) as [E|E].
  - rewrite decide_True in IH by done. cbn [length] in IH.
    rewrite E in *.
    destruct (decide (length (filter (y =.) seen) < n)%nat) as [Hlt|Hge].
    + rewrite filter_cons_True by done. rewrite IH.
      replace (n - length (filter (y =.) seen))%nat
        with (S (n - S (length (filter (y =.) seen)))) by lia.
      done.
    + rewrite IH.
      replace (n - length (filter (y =.) seen))%nat with 0%nat by lia.
      by replace (n - S (length (filter (y =.) seen)))%nat with 0%nat by lia.
  - rewrite decide_False in IH by done.
    destruct (decide _); [rewrite filter_cons_False by done|]; apply IH.
Qed.

Lemma by_group_volume_year key df r :
  key ≠ "Year" → key ≠ "Trade volume" →
  r ∈ rows (by_group_volume "Year" key df) → get r "Year" ≠ CNaN.
Proof.
  intros Hk1 Hk2 Hr. unfold by_group_volume in Hr.
  rewrite sort_values_perm in Hr.
  destruct (groupby_sum_spec ["Year"; key] "Trade volume" df) as [_ Hspec].
  { apply NoDup_cons. split; [by intros ?%list_elem_of_singleton|].
    apply NoDup_singleton. }
  { intros [?|?%list_elem_of_singleton]%elem_of_cons; congruence. }
  destruct (Hspec r Hr) as [Hna _]. unfold Pd.notna_on in Hna. simpl in Hna.
  by destruct (get r "Year").
Qed.

Lemma year_rows_sorted y key df :
  StronglySorted volume_desc (year_rows y (by_group_volume "Year" key df)).
Proof.
  unfold year_rows. eapply StronglySorted_impl_in; cycle 1.
  - eapply StronglySorted_sublist;
      [apply sublist_filter|apply by_group_volume_sorted].
  - intros r1 r2 [E1 _]%list_elem_of_filter [E2 _]%list_elem_of_filter.
    intros [Hlt|[_ Hvol]]; [|done].
    rewrite E1, E2, (tp_refl _ cell_compare_total_preorder) in Hlt. done.
Qed.

Lemma filter_none {A} (P : A → Prop) `{!∀ x, Decision (P x)} (l : list A) :
  (∀ x, x ∈ l → ¬ P x) → filter P l = [].
Proof.
  induction l as [|x l IH]; intros Hl; [done|].
  rewrite filter_cons_False by (apply Hl; left).
  apply IH. intros y Hy. apply Hl. by right.
Qed.

Lemma groupby_head_first_n key n df :
  key ≠ "Year" → key ≠ "Trade volume" →
  first_n_per_year n (by_group_volume "Year" key df)
    (Pd.groupby_head "Year" n (by_group_volume "Year" key df)).
Proof.
  intros Hk1 Hk2 y. split.
  - unfold year_rows, Pd.groupby_head. cbn [rows].
    destruct (decide (y = CNaN)) as [->|Hy].
    + rewrite !filter_none; [by rewrite take_nil| |].
      * intros r Hr E. by eapply by_group_volume_year.
      * intros r Hr E.
        eapply by_group_volume_year; [exact Hk1|exact Hk2| |exact E].
        eapply elem_of_sublist; [exact Hr|apply group_head_go_sublist].
    + rewrite group_head_go_filter by done.
      by rewrite filter_nil, Nat.sub_0_r.
  - intros r r' Hr Hr'.
    pose proof (year_rows_sorted y key df) as Hs.
    rewrite <-(take_drop n (year_rows y _)) in Hs.
    by eapply StronglySorted_app_1_elem_of.
Qed.

(** X8: the top-3 importers, the top-3 destination countries and the top-1
    coffee bean per year hold, for every year, exactly the first 3, 3 and 1
    rows of that year in the table they are cut from; no row left out has a
    larger summed volume than a row kept for the same year. *)
Theorem top_n_are_the_first_n (df_all : DataFrame) :
  first_n_per_year 3 (by_group_volume "Year" "Importer" df_all)
    (top3_imp df_all) ∧
  first_n_per_year 3 (by_group_volume "Year" "Country of destination" df_all)
    (top3_countries df_all) ∧
  first_n_per_year 1 (by_group_volume "Year" "Coffee bean" df_all)
    (top1_bean_year df_all).
Proof.
  unfold top3_imp, top3_countries, top1_bean_year.
  split; [|split]; by apply groupby_head_first_n.
Qed.

Lemma groupby_head_leads key n df :
  (0 < n)%nat → key ≠ "Year" → key ≠ "Trade volume" →
  leads_every_year (by_group_volume "Year" key df)
    (Pd.groupby_head "Year" n (by_group_volume "Year" key df)).
Proof.
  intros Hn Hk1 Hk2 r' Hr'.
  destruct (groupby_head_first_n key n df Hk1 Hk2 (get r' "Year")) as [Htop _].
  pose proof (year_rows_sorted (get r' "Year") key df) as Hs.
  assert (r' ∈ year_rows (get r' "Year") (by_group_volume "Year" key df))
    as Hin by (by apply list_elem_of_filter).
  destruct (year_rows _ (by_group_volume "Year" key df)) as [|r l] eqn:El.
  { by apply elem_of_nil in Hin. }
  assert (r ∈ year_rows (get r' "Year")
                (Pd.groupby_head "Year" n (by_group_volume "Year" key df)))
    as Hr.
  { rewrite Htop. destruct n; [lia|]. left. }
  apply list_elem_of_filter in Hr as [Hy Hr].
  exists r. split; [done|]. split; [done|].
  apply StronglySorted_inv in Hs as [_ Hall].
  apply elem_of_cons in Hin as [->|Hin].
  - unfold volume_desc. apply Qcle_refl.
  - by eapply Forall_forall in Hall.
Qed.

(** X9: every year that has a row in the table of importers, destination
    countries or coffee beans per year has one in the top-N table, and that
    row has the largest summed volume of the year: the top-1 bean of a year is
    a most exported bean of that year. *)
Theorem top_n_lead_every_year (df_all : DataFrame) :
  leads_every_year (by_group_volume "Year" "Importer" df_all)
    (top3_imp df_all) ∧
  leads_every_year (by_group_volume "Year" "Country of destination" df_all)
    (top3_countries df_all) ∧
  leads_every_year (by_group_volume "Year" "Coffee bean" df_all)
    (top1_bean_year df_all).
Proof.
  unfold top3_imp, top3_countries, top1_bean_year.
  split; [|split]; apply groupby_head_leads; (lia || done).
Qed.

(** ** One chart per year *)

Lemma string_length_app s t :
  String.length (s +:+ t) = (String.length s + String.length t)%nat.
Proof. induction s as [|c s IH]; simpl; [done|]. by rewrite IH. Qed.

Lemma string_app_inj_r s1 s2 t : s1 +:+ t = s2 +:+ t → s1 = s2.
Proof.
  revert s2. induction s1 as [|c1 s1 IH]; intros [|c2 s2] E.
  - done.
  - apply (f_equal String.length) in E.
    rewrite !string_length_app in E. simpl in E. lia.
  - apply (f_equal String.length) in E.
    rewrite !string_length_app in E. simpl in E. lia.
  - injection E as -> E. f_equal. by apply IH.
Qed.

Lemma chart_name_inj prefix y1 y2 :
  out_path (prefix +:+ y1 +:+ ".png") = out_path (prefix +:+ y2 +:+ ".png") →
  y1 = y2.
Proof.
  unfold out_path. intros E. do 3 apply (inj (String.app _)) in E.
  by apply string_app_inj_r in E.
Qed.

Lemma for_each_write {A} (l : list A) (f : A → file) fs :
  for_each l (λ x, write (f x)) fs = (fs ++ (f <$> l), inr ()).
Proof.
  revert fs. induction l as [|x l IH]; intros fs; simpl.
  { by rewrite app_nil_r. }
  rewrite bind_run. cbn [write]. rewrite IH. by rewrite <-(assoc_L (++)).
Qed.

Lemma le_of_string_compare s t : le_of String.compare s t → String.le s t.
Proof.
  unfold le_of, String.le, String.leb. by destruct (String.compare s t).
Qed.

Lemma elem_of_str_values c df y :
  y ∈ Pd.str_values c df ↔ ∃ r, r ∈ rows df ∧ get r c = CStr y.
Proof.
  unfold Pd.str_values. rewrite list_elem_of_omap. split.
  - intros (r & Hr & E). exists r. split; [done|].
    destruct (get r c); by simplify_eq.
  - intros (r & Hr & E). exists r. split; [done|]. by rewrite E.
Qed.


(** ** The five largest municipalities *)

Lemma NoDup_by_volume_keys key df :
  key ≠ "Trade volume" → NoDup ((λ r, get r key) <$> rows (by_volume key df)).
Proof.
  intros Hkey. unfold by_volume. rewrite (sort_values_perm _ _).
  destruct (groupby_sum_spec [key] "Trade volume" df) as [Hnd _].
  { apply NoDup_singleton. }
  { intros ?%list_elem_of_singleton. congruence. }
  change (Pd.key_of [key]) with ((λ c : cell, [c]) ∘ (λ r, get r key)) in Hnd.
  rewrite list_fmap_compose in Hnd. by apply NoDup_fmap_1 in Hnd.
Qed.

Lemma top5_names_eq df :
  top5_names df
  = (λ r, get r "Municipality of export") <$> take 5 (rows (muni df)).
Proof.
  unfold top5_names, Pd.tolist, Pd.head. cbn [rows].
  by rewrite take_take.
Qed.

(** X11: the municipalities picked for the exporter breakdown are the keys
    of the first five rows of the municipality table: at most five, pairwise
    distinct, none missing, and no municipality left out has a larger summed
    volume.  The breakdown keeps, in their order, exactly the rows of the
    municipality-and-exporter table whose municipality is one of them. *)
Theorem top5_municipalities (df_all : DataFrame) :
  top5_names df_all
    = Pd.tolist "Municipality of export" (Pd.head 5 (muni df_all)) ∧
  (length (top5_names df_all) ≤ 5)%nat ∧
  NoDup (top5_names df_all) ∧
  (∀ m, m ∈ top5_names df_all → m ≠ CNaN) ∧
  (∀ r r', r ∈ take 5 (rows (muni df_all)) →
           r' ∈ drop 5 (rows (muni df_all)) → volume_desc r r') ∧
  rows (top_muni_exp df_all)
    `sublist_of` rows (by_group_volume "Municipality of export" "Exporter"
                         df_all) ∧
  (∀ r, r ∈ rows (top_muni_exp df_all) ↔
        r ∈ rows (by_group_volume "Municipality of export" "Exporter" df_all)
        ∧ get r "Municipality of export" ∈ top5_names df_all).
Proof.
  split; [apply top5_names_eq|].
  rewrite top5_names_eq. split; [|split; [|split; [|split; [|split]]]].
  - rewrite length_fmap, length_take. lia.
  - eapply sublist_NoDup;
      [by apply (NoDup_by_volume_keys "Municipality of export" df_all)|].
    apply fmap_sublist, sublist_take.
  - intros m (r & -> & Hr)%list_elem_of_fmap.
    apply (by_volume_key_present _ df_all); [done|].
    eapply elem_of_sublist; [exact Hr|apply sublist_take].
  - intros r r' Hr Hr'.
    pose proof (by_volume_sorted "Municipality of export" df_all) as Hs.
    fold (muni df_all) in Hs. rewrite <-(take_drop 5 (rows (muni _))) in Hs.
    by eapply StronglySorted_app_1_elem_of.
  - unfold top_muni_exp, Pd.isin. cbn [rows]. apply sublist_filter.
  - intros r. unfold top_muni_exp, Pd.isin. cbn [rows].
    rewrite list_elem_of_filter, top5_names_eq. tauto.
Qed.

(** ** File names: spaces and surrounding white space *)

Lemma prefix_empty s : String.prefix EmptyString s = true.
Proof. by destruct s. Qed.

Lemma replace_space_cons c s :
  Str.replace " " "_" (String c s)
  = String (if decide (c = " "%char) then "_"%char else c)
      (Str.replace " " "_" s).
Proof.
  unfold Str.replace. cbn [Str.replace_go].
  change (String.prefix " " (String c s))
    with (if ascii_dec " " c then String.prefix EmptyString s else false).
  destruct (ascii_dec " " c) as [<-|Hne].
  - rewrite prefix_empty. by rewrite decide_True.
  - rewrite decide_False by congruence. done.
Qed.

Lemma replace_space_get s i :
  String.get i (Str.replace " " "_" s)
  = (λ c, if decide (c = " "%char) then "_"%char else c) <$> String.get i s.
Proof.
  revert i. induction s as [|c s IH]; intros i; [by destruct i|].
  rewrite replace_space_cons. destruct i as [|i]; [done|]. apply IH.
Qed.

Lemma replace_space_length s :
  String.length (Str.replace " " "_" s) = String.length s.
Proof.
  induction s as [|c s IH]; [done|].
  rewrite replace_space_cons. cbn [String.length]. by rewrite IH.
Qed.

Lemma replace_space_no_space s :
  Str.contains " " (Str.replace " " "_" s) = false.
Proof.
  induction s as [|c s IH]; [done|].
  rewrite replace_space_cons. cbn [Str.contains]. rewrite IH, orb_false_r.
  set (c' := if decide (c = " "%char) then "_"%char else c).
  change (String.prefix " " (String c' (Str.replace " " "_" s)))
    with (if ascii_dec " " c'
          then String.prefix EmptyString (Str.replace " " "_" s) else false).
  destruct (ascii_dec " " c') as [E|?]; [|done].
  subst c'. by destruct (decide (c = " "%char)).
Qed.

(** X12: the file name of a municipality chart.  For a municipality that is
    a string the slug is that string with every space turned into an
    underscore: same length, no space left, every other character in place.
    For any other municipality the formatting raises an [AttributeError]. *)
Theorem muni_slug_spec (m : cell) :
  match muni_slug m with
  | inr slug =>
      ∃ s, m = CStr s ∧
           String.length slug = String.length s ∧
           Str.contains " " slug = false ∧
           ∀ i, String.get i slug
                = (λ c, if decide (c = " "%char) then "_"%char else c)
                    <$> String.get i s
  | inl e => e = AttributeError ∧ ¬ is_str m
  end.
Proof.
  destruct m as [s|q|]; simpl; [|by split; [|intros []]..].
  exists s. split; [done|]. split; [apply replace_space_length|].
  split; [apply replace_space_no_space|]. intros i. apply replace_space_get.
Qed.

Lemma lstrip_first s c :
  first_char (Str.lstrip s) = Some c → Str.isspace c = false.
Proof.
  induction s as [|a s IH]; [done|]. cbn [Str.lstrip].
  destruct (Str.isspace a) eqn:E; [done|]. by intros [= <-].
Qed.

Lemma rstrip_first s c :
  (∀ a, first_char s = Some a → Str.isspace a = false) →
  first_char (Str.rstrip s) = Some c → Str.isspace c = false.
Proof.
  destruct s as [|a s]; [done|]. intros Ha. specialize (Ha a eq_refl).
  cbn [Str.rstrip]. rewrite Ha.
  destruct (Str.rstrip s); by intros [= <-].
Qed.

Lemma rstrip_last s c :
  last_char (Str.rstrip s) = Some c → Str.isspace c = false.
Proof.
  induction s as [|a s IH]; [done|]. cbn [Str.rstrip].
  destruct (Str.rstrip s) as [|b r] eqn:E.
  - destruct (Str.isspace a) eqn:Ha; [done|]. by intros [= <-].
  - intros H. apply IH. exact H.
Qed.

Lemma lstrip_id s :
  (∀ a, first_char s = Some a → Str.isspace a = false) → Str.lstrip s = s.
Proof.
  destruct s as [|a s]; [done|]. intros Ha. cbn [Str.lstrip].
  by rewrite (Ha a eq_refl).
Qed.

Lemma rstrip_id s :
  (∀ a, last_char s = Some a → Str.isspace a = false) → Str.rstrip s = s.
Proof.
  induction s as [|a s IH]; [done|]. intros Ha. cbn [Str.rstrip].
  destruct s as [|b s].
  - simpl. by rewrite (Ha a eq_refl).
  - rewrite IH by (intros c Hc; by apply Ha). done.
Qed.

(** X13: a year label neither starts nor ends with white space, so stripping
    it again changes nothing. *)
Theorem year_label_is_stripped (sheet : string) :
  (∀ c, first_char (year_label sheet) = Some c → Str.isspace c = false) ∧
  (∀ c, last_char (year_label sheet) = Some c → Str.isspace c = false) ∧
  Str.strip (year_label sheet) = year_label sheet.
Proof.
  unfold year_label.
  set (s := Str.replace "Year " EmptyString sheet).
  assert (∀ c, first_char (Str.strip s) = Some c → Str.isspace c = false)
    as Hfirst.
  { intros c. unfold Str.strip. apply rstrip_first. apply lstrip_first. }
  assert (∀ c, last_char (Str.strip s) = Some c → Str.isspace c = false)
    as Hlast.
  { intros c. unfold Str.strip. apply rstrip_last. }
  split; [done|]. split; [done|].
  unfold Str.strip at 1. rewrite lstrip_id by done. by apply rstrip_id.
Qed.

(** ** How a run ends *)

Lemma bind_succeeds_run {A B} (m : M A) (k : M B) fs :
  succeeds m → (m ≫= (λ _, k)) fs = k (m fs).1.
Proof.
  intros Hm. rewrite bind_run. destruct (Hm fs) as [x Hx].
  destruct (m fs) as [fs' r]. simpl in *. by subst r.
Qed.

Lemma for_each_muni_charts (l : list cell) fs :
  (Forall is_str l →
     (for_each l (λ m, slug ← lift (muni_slug m);
                       barh_plot ("G2_exporters_top_" +:+ slug +:+ ".png"))
        fs).2 = inr ()) ∧
  (¬ Forall is_str l →
     (for_each l (λ m, slug ← lift (muni_slug m);
                       barh_plot ("G2_exporters_top_" +:+ slug +:+ ".png"))
        fs).2 = inl AttributeError).
Proof.
  revert fs. induction l as [|m l IH]; intros fs.
  { split; [done|]. intros []. constructor. }
  cbn [for_each]. rewrite bind_run.
  destruct m as [s|q|].
  - rewrite bind_run. cbn [lift muni_slug barh_plot write].
    destruct (IH (fs ++ [Png (out_path ("G2_exporters_top_"
                                        +:+ Str.replace " " "_" s
                                        +:+ ".png"))])) as [IH1 IH2].
    split.
    + intros [_ Hl]%Forall_cons. by apply IH1.
    + intros Hl. apply IH2. intros Hl'. apply Hl. by constructor.
  - rewrite bind_run. cbn [lift muni_slug]. split; [|done].
    by intros [[] _]%Forall_cons.
  - rewrite bind_run. cbn [lift muni_slug]. split; [|done].
    by intros [[] _]%Forall_cons.
Qed.

Lemma report_G_result df fs :
  ((draws_municipality_charts df → Forall is_str (top5_names df)) →
     (report_G df fs).2 = inr ()) ∧
  (draws_municipality_charts df → ¬ Forall is_str (top5_names df) →
     (report_G df fs).2 = inl AttributeError).
Proof.
  unfold report_G, draws_municipality_charts.
  destruct (has_column "Municipality of export" df); cbn [when].
  2:{ split; [done|]. by intros [? _]. }
  rewrite bind_succeeds_run by apply succeeds_save_table.
  rewrite bind_succeeds_run by apply succeeds_write.
  destruct (has_column "Exporter" df); cbn [when].
  2:{ split; [done|]. by intros [_ ?]. }
  rewrite bind_succeeds_run by apply succeeds_save_table.
  match goal with
  | |- context [for_each ?l ?f ?fs'] =>
      destruct (for_each_muni_charts l fs') as [H1 H2]
  end.
  split; [intros H; apply H1, H; done|]. intros _. apply H2.
Qed.

Lemma reports_result df fs :
  ((draws_municipality_charts df → Forall is_str (top5_names df)) →
     (reports df fs).2 = inr 0%Z) ∧
  (draws_municipality_charts df → ¬ Forall is_str (top5_names df) →
     (reports df fs).2 = inl AttributeError).
Proof.
  unfold reports.
  rewrite bind_succeeds_run by apply succeeds_save_table.
  rewrite bind_succeeds_run by apply report_A_writes.
  rewrite bind_succeeds_run by apply report_B_writes.
  rewrite bind_succeeds_run by apply report_C_writes.
  rewrite bind_succeeds_run by apply report_D_writes.
  rewrite bind_succeeds_run by apply report_E_writes.
  rewrite bind_succeeds_run by apply report_F_writes.
  rewrite bind_run.
  match goal with
  | |- context [report_G df ?fs'] =>
      destruct (report_G_result df fs') as [H1 H2];
      destruct (report_G df fs') as [fs'' [e|[]]]
  end; simpl in *.
  - split.
    + intros H. by specialize (H1 H).
    + intros Hd Hn. specialize (H2 Hd Hn). by injection H2 as ->.
  - split; [done|]. intros Hd Hn. by specialize (H2 Hd Hn).
Qed.



(** ** Which table each file holds *)

Lemma csv_files_app fs1 fs2 :
  csv_files (fs1 ++ fs2) = csv_files fs1 ++ csv_files fs2.
Proof. apply omap_app. Qed.

Section WritesTables.
Context {A B : Type}.
Implicit Types (m : M A) (f : A → M B).

Lemma writes_tables_ret (x : A) : writes_tables (mret x) [].
Proof. intros fs. exists []. simpl. by rewrite app_nil_r. Qed.

Lemma writes_tables_bind m f l1 l2 :
  succeeds m → writes_tables m l1 → (∀ x, writes_tables (f x) l2) →
  writes_tables (m ≫= f) (l1 ++ l2).
Proof.
  intros Hs Hm Hf fs. rewrite bind_run.
  destruct (Hs fs) as [x Hx], (Hm fs) as (out1 & Hfs & Hp).
  destruct (m fs) as [fs' r]; simpl in *. subst r fs'.
  destruct (Hf x (fs ++ out1)) as (out2 & Hfs' & Hp').
  exists (out1 ++ out2).
  by rewrite Hfs', csv_files_app, Hp, Hp', (assoc_L (++)).
Qed.

Lemma writes_tables_bind_last m f l :
  writes_tables m l → (∀ x, writes_tables (f x) []) →
  writes_tables (m ≫= f) l.
Proof.
  intros Hm Hf fs. rewrite bind_run.
  destruct (Hm fs) as (out1 & Hfs & Hp).
  destruct (m fs) as [fs' [e|x]]; simpl in *; subst fs'.
  { by exists out1. }
  destruct (Hf x (fs ++ out1)) as (out2 & Hfs' & Hp').
  exists (out1 ++ out2).
  by rewrite Hfs', csv_files_app, Hp, Hp', (assoc_L (++)), app_nil_r.
Qed.
End WritesTables.

Lemma writes_tables_save_table df name :
  writes_tables (save_table df name) [(out_path (name +:+ ".csv"), df)].
Proof. intros fs. by eexists [_]. Qed.

Lemma writes_tables_png p : writes_tables (write (Png p)) [].
Proof. intros fs. by exists [Png p]. Qed.

Lemma writes_tables_for_each {A} (l : list A) (f : A → M unit) :
  (∀ x, writes_tables (f x) []) → writes_tables (for_each l f) [].
Proof.
  intros Hf. induction l as [|x l IH]; simpl.
  - apply writes_tables_ret.
  - by apply writes_tables_bind_last.
Qed.

Lemma writes_tables_when (b : bool) m l :
  (b = true → writes_tables m l) →
  writes_tables (when b m) (if b then l else []).
Proof. destruct b; simpl; [auto|]. intros _. apply (writes_tables_ret ()). Qed.

Local Ltac table_step :=
  first
    [ apply succeeds_save_table | apply succeeds_write
    | apply succeeds_plot_per_year | apply writes_tables_png
    | apply writes_tables_save_table
    | apply writes_tables_for_each; intros; apply writes_tables_png ].

Lemma reports_writes_tables df : writes_tables (reports df) (expected_tables df).
Proof.
  unfold reports, expected_tables.
  apply (writes_tables_bind _ _ [_] _); [table_step..|intros _].
  apply (writes_tables_bind _ _ [_] _); [apply report_A_writes| |intros _].
  { apply (writes_tables_bind _ _ [_] []); intros; table_step. }
  apply writes_tables_bind; [apply report_B_writes| |intros _].
  { apply writes_tables_when. intros _.
    apply (writes_tables_bind _ _ [_] []); intros; table_step. }
  apply writes_tables_bind; [apply report_C_writes| |intros _].
  { apply writes_tables_when. intros _.
    apply (writes_tables_bind _ _ [_] []); intros; table_step. }
  apply writes_tables_bind; [apply report_D_writes| |intros _].
  { apply writes_tables_when. intros _.
    apply (writes_tables_bind _ _ [_] []); intros; table_step. }
  apply writes_tables_bind; [apply report_E_writes| |intros _].
  { apply writes_tables_when. intros _.
    apply (writes_tables_bind _ _ [_] []); intros; table_step. }
  apply writes_tables_bind; [apply report_F_writes| |intros _].
  { apply writes_tables_when. intros _.
    apply (writes_tables_bind _ _ [_] [_]); [table_step..|intros _].
    apply (writes_tables_bind _ _ [] [_]); [table_step..|intros _].
    apply (writes_tables_bind _ _ [_] []); intros; table_step. }
  apply writes_tables_bind_last; [|intros _; apply writes_tables_ret].
  apply writes_tables_when. intros _.
  apply (writes_tables_bind _ _ [_] _); [table_step..|intros _].
  apply (writes_tables_bind _ _ [] _); [table_step..|intros _].
  apply writes_tables_when. intros _.
  apply writes_tables_bind_last; [table_step|intros _].
  apply writes_tables_for_each. intros m.
  apply writes_tables_bind_last.
  - intros fs. exists []. simpl. by rewrite app_nil_r.
  - intros slug. apply writes_tables_png.
Qed.

Lemma expected_tables_paths df : (expected_tables df).*1 = expected_csvs df.
Proof.
  unfold expected_tables, expected_csvs.
  by destruct (has_column "Country of destination" df),
    (has_column "Exporter" df), (has_column "Importer" df),
    (has_column "Coffee bean" df), (has_column "Municipality of export" df).
Qed.

Lemma expected_csvs_NoDup df : NoDup (expected_csvs df).
Proof.
  unfold expected_csvs.
  destruct (has_column "Country of destination" df),
    (has_column "Exporter" df), (has_column "Importer" df),
    (has_column "Coffee bean" df), (has_column "Municipality of export" df);
    apply (bool_decide_unpack _); vm_compute; exact I.
Qed.

Lemma csv_table_snoc path fs f :
  csv_table path (fs ++ [f])
  = match f with
    | Csv p t => if decide (p = path) then Some t else csv_table path fs
    | Png _ => csv_table path fs
    end.
Proof. unfold csv_table. by rewrite foldl_app. Qed.

(** With pairwise distinct paths, the table found at a path is the one
    written there. *)
Lemma csv_table_elem_of path t fs :
  NoDup (csv_files fs).*1 →
  csv_table path fs = Some t ↔ (path, t) ∈ csv_files fs.
Proof.
  induction fs as [|f fs IH] using rev_ind; intros Hnd.
  { split; [done|]. by intros ?%elem_of_nil. }
  rewrite csv_files_app, fmap_app in Hnd. apply NoDup_app in Hnd
    as (Hnd1 & Hdisj & Hnd2).
  rewrite csv_table_snoc, csv_files_app, elem_of_app.
  destruct f as [p t'|p]; simpl.
  - rewrite list_elem_of_singleton. destruct (decide (p = path)) as [->|Hne].
    + split; [intros [= ->]; by right|].
      intros [Hin|[= ->]]; [|done]. exfalso.
      apply (Hdisj path); [|left].
      apply list_elem_of_fmap. by exists (path, t).
    + rewrite IH by done. split; [by left|].
      intros [?|[= ? _]]; [done|congruence].
  - rewrite IH by done. split; [by left|]. by intros [?|?%elem_of_nil].
Qed.



(** ** Percentages of non-negative volumes *)

Lemma sum_nonneg c (l : list (gmap string cell)) :
  Forall (λ r, (0 ≤ num (get r c))%Qc) l → (0 ≤ Pd.sum c l)%Qc.
Proof.
  induction 1 as [|r l Hr _ IH]; [done|].
  rewrite sum_cons. by apply Qcplus_nonneg_nonneg.
Qed.

Lemma sum_ge_elem c (l : list (gmap string cell)) r :
  Forall (λ r, (0 ≤ num (get r c))%Qc) l → r ∈ l →
  (num (get r c) ≤ Pd.sum c l)%Qc.
Proof.
  induction 1 as [|r' l Hr' Hl IH]; [by intros ?%elem_of_nil|].
  rewrite sum_cons. intros [->|Hin]%elem_of_cons.
  - rewrite <-(Qcplus_0_r (num (get r' c))) at 1.
    apply Qcplus_le_mono_l. by apply sum_nonneg.
  - etrans; [by apply IH|].
    rewrite <-(Qcplus_0_l (Pd.sum c l)) at 1. by apply Qcplus_le_mono_r.
Qed.

Lemma by_volume_nonneg key df :
  (∀ r, r ∈ rows df → (0 ≤ volume r)%Qc) →
  Forall (λ r, (0 ≤ num (get r "Trade volume"))%Qc) (rows (by_volume key df)).
Proof.
  intros Hdf. apply Forall_forall. intros r Hr. unfold by_volume in Hr.
  rewrite sort_values_perm in Hr. cbn [Pd.groupby_sum rows] in Hr.
  apply list_elem_of_fmap in Hr as (k & -> & _).
  rewrite get_group_row_measure. simpl. apply sum_nonneg, Forall_forall.
  intros r [_ Hr]%list_elem_of_filter. by apply Hdf.
Qed.

Lemma percentage_bounds (v total : Qc) :
  (0 ≤ v)%Qc → (v ≤ total)%Qc → total ≠ 0%Qc →
  (0 ≤ v / total * Qc_of_Z 100)%Qc ∧ (v / total * Qc_of_Z 100 ≤ Qc_of_Z 100)%Qc.
Proof.
  intros Hv Hle Hne.
  assert (0 < total)%Qc as Hpos.
  { destruct (Qcle_lt_or_eq 0 total) as [?|?]; [by etrans|done|congruence]. }
  assert ((v / total * Qc_of_Z 100) * total = v * Qc_of_Z 100)%Qc as E
    by (field; done).
  assert (0 ≤ Qc_of_Z 100)%Qc as H100 by done.
  split; apply (Qcmult_lt_0_le_reg_r _ _ total Hpos); rewrite E.
  - rewrite Qcmult_0_l. rewrite <-(Qcmult_0_l (Qc_of_Z 100)).
    by apply Qcmult_le_compat_r.
  - rewrite (Qcmult_comm (Qc_of_Z 100) total). by apply Qcmult_le_compat_r.
Qed.



Lemma top5_municipalities_witness : CStr "Santa Marta" ≠ CNaN.
Proof.
  apply (proj1 (proj2 (proj2 (proj2 (top5_municipalities df_full))))).
  apply (bool_decide_unpack _). vm_compute. exact I.
Defined.

Lemma year_label_is_stripped_witness : Str.isspace "2" = false.
Proof.
  apply (proj1 (year_label_is_stripped " Year 2020 ")). reflexivity.
Defined.
